(** * orgExplorer: the asynchronous savings-export jobs of the frontend server

    The server keeps a process-wide table [jobStatus] (a JS object used as a
    map from job id to job record) and a temporary directory of zip files.
    Three routes and one background function work on them:

    - [GET /org/:id/download_monthly_savings_csv]  starts a job,
    - [GET /api/job-status/:jobId]                 sweeps old jobs, reports one,
    - [GET /api/download/:jobId]                   sends the zip, then unlinks it,
    - [processSavingsExport(orgId, jobId)]         the background worker.

    (The server code is the second document in
    [src/frontend/public/org_detail.html].)

    The handlers are synchronous and become functions on the server state.
    The worker is an [async] function: it is cut at its three [await]s into
    continuations, each run by one event that carries what the environment
    answered (the remote reply, the outcome of the write).  [Date.now()] is an
    input of the event that reads it. *)

From stdpp Require Import base option list gmap strings pretty.

Open Scope Z_scope.
Open Scope string_scope.

(** ** JavaScript values the code relies on *)

(** [x || d] on strings: the empty string is falsy. *)
Definition str_or (x d : string) : string :=
  if bool_decide (x = "") then d else x.

(** [x || d] where [x] may be [undefined]/[null] ([None]). *)
Definition opt_or (x : option string) (d : string) : string :=
  match x with
  | Some s => str_or s d
  | None => d
  end.

(** Truthiness of a nullable string: [!x] is [negb (truthy x)]. *)
Definition truthy (x : option string) : bool :=
  match x with
  | Some s => negb (bool_decide (s = ""))
  | None => false
  end.

(** Binary payload of the report ([responseType: 'arraybuffer']). *)
Abbreviation bytes := (list Byte.byte).

(** ** Job records *)

(** The three values the code gives to [status]: 'processing',
    'completed', 'error'. *)
Inductive job_status := Processing | Completed | Error.

Global Instance job_status_eq_dec : EqDecision job_status.
Proof. solve_decision. Defined.

(** The object literal of the start route, plus [orgName], which the worker
    adds later ([None] is [null] for [exportId]/[error] and [undefined] for
    [orgName]). *)
Record Job := mkJob {
  status : job_status;
  orgId : string;
  exportId : option string;
  error : option string;
  created : Z;
  orgName : option string
}.

Definition set_orgName (n : string) (j : Job) : Job :=
  mkJob (status j) (orgId j) (exportId j) (error j) (created j) (Some n).

Definition set_completed (e : string) (j : Job) : Job :=
  mkJob Completed (orgId j) (Some e) (error j) (created j) (orgName j).

Definition set_error (m : string) (j : Job) : Job :=
  mkJob Error (orgId j) (exportId j) (Some m) (created j) (orgName j).

Definition terminal (st : job_status) : Prop := st = Completed ∨ st = Error.

(** ** The job table and property lookup

    [jobStatus] is created by [{}], so besides its own properties it
    inherits the members of [Object.prototype].  [Object.keys] and [delete]
    see own properties only; a read [jobStatus[k]] follows the prototype. *)

Definition object_prototype_names : list string :=
  [ "constructor"; "__defineGetter__"; "__defineSetter__"; "hasOwnProperty";
    "__lookupGetter__"; "__lookupSetter__"; "isPrototypeOf";
    "propertyIsEnumerable"; "toString"; "valueOf"; "__proto__";
    "toLocaleString" ].

Inductive js_value :=
  | VJob (j : Job)              (* an own property: a job record *)
  | VInherited (name : string). (* a member of Object.prototype (truthy) *)

(** [jobStatus[k]]; [None] is [undefined]. *)
Definition js_get (tbl : gmap string Job) (k : string) : option js_value :=
  match tbl !! k with
  | Some j => Some (VJob j)
  | None =>
      if bool_decide (k ∈ object_prototype_names) then Some (VInherited k)
      else None
  end.

(** ** Identifiers and paths *)

(** [`savings-export-${orgId}-${Date.now()}`], used for job ids and for
    export ids alike. *)
Definition savings_export_id (org : string) (now : Z) : string :=
  "savings-export-" +:+ org +:+ "-" +:+ pretty now.

Definition tempDir : string := "temp".

(** [path.join(tempDir, `${exportId}.zip`)], with [tempDir] taken relative
    to [__dirname].  ([path.join] also resolves [.] and [..] segments; ids
    with path separators are not looked at here.) *)
Definition filePath (eid : string) : string :=
  tempDir +:+ "/" +:+ eid +:+ ".zip".

(** ** Server state *)

Inductive worker_pc :=
  | AwaitOrg                               (* awaiting GET /org/:id *)
  | AwaitReport                            (* awaiting the export API *)
  | AwaitWrite (eid : string) (data : bytes) (* awaiting fs.promises.writeFile *)
  | Finished.

Record task := mkTask {
  w_orgId : string;
  w_jobId : string;
  w_pc : worker_pc
}.

Inductive transfer_pc := Sending | Unlinking | Closed.

Record transfer := mkTransfer {
  d_path : string;
  d_pc : transfer_pc
}.

Record state := mkState {
  jobStatus : gmap string Job;
  files : gmap string bytes;
  workers : list task;
  transfers : list transfer
}.

Definition init : state := mkState ∅ ∅ [] [].

(** ** What the environment answers *)

(** An axios call resolves with data or rejects with an error, of which the
    code reads [message] only. *)
Inductive axios_result (A : Type) :=
  | AxOk (data : A)
  | AxErr (message : string).
Arguments AxOk {A} data.
Arguments AxErr {A} message.

(** Body of the organization reply as far as [data.org?.org] looks at it. *)
Inductive org_data :=
  | DataNull                       (* data is null/undefined *)
  | DataNoOrg                      (* data.org is null/undefined *)
  | DataOrg (name : option string). (* data.org.org *)

(** Outcome of [writeFile]: done, or rejected with what it left at the path
    ([writeFile] opens with flag 'w', so a failure after the open leaves an
    empty or truncated file). *)
Inductive write_outcome :=
  | WriteOk
  | WriteErr (message : string) (left : option bytes).

(** ** Responses *)

Inductive response :=
  | StartJson (st : string) (message : string) (jobId : string)
      (* 200 {status, message, jobId} *)
  | StatusJson (v : js_value)       (* 200, res.json(jobStatus[jobId]) *)
  | NotFound (err : string)         (* 404 {error} *)
  | SendFile (path : string) (filename : string). (* res.download *)

(** ** A small error monad for the body of [try] *)

Definition result (A : Type) : Type := A + string.

Definition ret {A} (x : A) : result A := inl x.
Definition throw {A} (message : string) : result A := inr message.
Definition bind {A B} (m : result A) (f : A → result B) : result B :=
  match m with
  | inl x => f x
  | inr e => inr e
  end.

Notation "x <~ m ;; k" := (bind m (λ x, k))
  (at level 100, m at next level, right associativity).

(** [await] of an axios promise inside [try]. *)
Definition await {A} (r : axios_result A) : result A :=
  match r with
  | AxOk d => ret d
  | AxErr m => throw m
  end.

(** ** The routes *)

(** [app.get('/org/:id/download_monthly_savings_csv')].  [t_id] and
    [t_created] are the two readings of [Date.now()].  The call of
    [processSavingsExport] runs the worker up to its first [await]. *)
Definition start_export (s : state) (org : string) (t_id t_created : Z)
  : state * response :=
  let jobId := savings_export_id org t_id in
  let job := mkJob Processing org None None t_created None in
  (mkState (<[jobId := job]> (jobStatus s)) (files s)
     (workers s ++ [mkTask org jobId AwaitOrg]) (transfers s),
   StartJson "processing"
     "Export started. You will be notified when complete." jobId).

(** The test of the clean-up loop:
    [jobStatus[id].created && now - jobStatus[id].created > 3600000]. *)
Definition expired (now : Z) (j : Job) : bool :=
  negb (bool_decide (created j = 0)) && bool_decide (now - created j > 3600000).

(** One round of [Object.keys(jobStatus).forEach(id => ...)]. *)
Definition sweep_one (now : Z) (id : string) (tbl : gmap string Job)
  : gmap string Job :=
  match tbl !! id with
  | Some j => if expired now j then delete id tbl else tbl
  | None => tbl
  end.

Definition sweep (now : Z) (tbl : gmap string Job) : gmap string Job :=
  foldl (λ acc id, sweep_one now id acc) tbl (map_to_list tbl).*1.

(** [app.get('/api/job-status/:jobId')] *)
Definition job_status_route (s : state) (jobId : string) (now : Z)
  : state * response :=
  let tbl := sweep now (jobStatus s) in
  let s' := mkState tbl (files s) (workers s) (transfers s) in
  match js_get tbl jobId with
  | None => (s', NotFound "Job not found")
  | Some v => (s', StatusJson v)
  end.

(** [jobStatus[jobId].exportId] and [.orgName] of a truthy lookup; the
    members of [Object.prototype] have neither property. *)
Definition value_exportId (v : js_value) : option string :=
  match v with
  | VJob j => exportId j
  | VInherited _ => None
  end.

Definition value_orgName (v : js_value) : option string :=
  match v with
  | VJob j => orgName j
  | VInherited _ => None
  end.

(** [app.get('/api/download/:jobId')] up to the call of [res.download];
    the callback is [download_sent] below. *)
Definition download_route (s : state) (jobId : string) : state * response :=
  let v := js_get (jobStatus s) jobId in
  let eid := v ≫= value_exportId in
  if negb (bool_decide (is_Some v)) || negb (truthy eid) then
    (s, NotFound "Export not found or not completed")
  else
    let path := filePath (default "" eid) in
    let name := opt_or (v ≫= value_orgName) "organization" in
    if negb (bool_decide (is_Some (files s !! path))) then
      (s, NotFound "Export file not found")
    else
      (mkState (jobStatus s) (files s) (workers s)
         (transfers s ++ [mkTransfer path Sending]),
       SendFile path (name +:+ "-savings-analysis.zip")).

(** The callback of [res.download]: on an error it only logs, otherwise it
    calls [fs.unlink]. *)
Definition download_sent (d : transfer) (ok : bool) : transfer :=
  mkTransfer (d_path d) (if ok then Unlinking else Closed).

(** [fs.unlink(filePath, cb)]: removes the file; when there is none the
    callback gets ENOENT, which is logged. *)
Definition unlink (path : string) (fs : gmap string bytes) : gmap string bytes :=
  delete path fs.

(** ** The background worker *)

(** The [catch] block of [processSavingsExport]. *)
Definition catch_block (tbl : gmap string Job) (jobId : string) (message : string)
  : gmap string Job :=
  match js_get tbl jobId with
  | Some (VJob j) =>
      <[jobId := set_error (str_or message "Export failed") j]> tbl
  | Some (VInherited _) => tbl  (* the writes land on the inherited member *)
  | None => tbl
  end.
(* The worker is only ever called with an id of the start route, for which
   the lookup is the record or undefined ([js_get_id], [tasks_wf]). *)

(** [orgResponse.data.org?.org] *)
Definition read_org_name (d : org_data) : result (option string) :=
  match d with
  | DataNull => throw "Cannot read properties of undefined (reading 'org')"
  | DataNoOrg => ret None
  | DataOrg n => ret n
  end.

(** [jobStatus[jobId].orgName = orgName] *)
Definition assign_orgName (tbl : gmap string Job) (jobId name : string)
  : result (gmap string Job) :=
  match js_get tbl jobId with
  | Some (VJob j) => ret (<[jobId := set_orgName name j]> tbl)
  | Some (VInherited _) => ret tbl
  | None => throw "Cannot set properties of undefined (setting 'orgName')"
  end.

(** [jobStatus[jobId].status = 'completed'; jobStatus[jobId].exportId = exportId] *)
Definition assign_completed (tbl : gmap string Job) (jobId eid : string)
  : result (gmap string Job) :=
  match js_get tbl jobId with
  | Some (VJob j) => ret (<[jobId := set_completed eid j]> tbl)
  | Some (VInherited _) => ret tbl
  | None => throw "Cannot set properties of undefined (setting 'status')"
  end.

(** From the first [await] to the second. *)
Definition worker_org (tbl : gmap string Job) (jobId : string)
    (r : axios_result org_data) : gmap string Job * worker_pc :=
  match (d <~ await r ;;
         n <~ read_org_name d ;;
         assign_orgName tbl jobId (opt_or n "organization")) with
  | inl tbl' => (tbl', AwaitReport)
  | inr e => (catch_block tbl jobId e, Finished)
  end.

(** From the second [await] to the third: the export id reads [Date.now()]. *)
Definition worker_report (tbl : gmap string Job) (org jobId : string)
    (r : axios_result bytes) (now : Z) : gmap string Job * worker_pc :=
  match await r with
  | inl data => (tbl, AwaitWrite (savings_export_id org now) data)
  | inr e => (catch_block tbl jobId e, Finished)
  end.

(** What [writeFile] does to the directory. *)
Definition write_effect (path : string) (data : bytes) (o : write_outcome)
    (fs : gmap string bytes) : gmap string bytes :=
  match o with
  | WriteOk => <[path := data]> fs
  | WriteErr _ (Some part) => <[path := part]> fs
  | WriteErr _ None => fs
  end.

Definition await_write (o : write_outcome) : result unit :=
  match o with
  | WriteOk => ret tt
  | WriteErr m _ => throw m
  end.

(** From the third [await] to the end. *)
Definition worker_write (tbl : gmap string Job) (jobId eid : string)
    (o : write_outcome) : gmap string Job :=
  match (_ <~ await_write o ;; assign_completed tbl jobId eid) with
  | inl tbl' => tbl'
  | inr e => catch_block tbl jobId e
  end.

(** ** Events and runs *)

Inductive event :=
  | EvStart (org : string) (t_id t_created : Z)
  | EvStatus (jobId : string) (now : Z)
  | EvDownload (jobId : string)
  | EvOrgReply (w : nat) (r : axios_result org_data)
  | EvReportReply (w : nat) (r : axios_result bytes) (now : Z)
  | EvWriteDone (w : nat) (o : write_outcome)
  | EvSent (d : nat) (ok : bool)
  | EvUnlinked (d : nat).

Definition set_worker (s : state) (w : nat) (tbl : gmap string Job)
    (fs : gmap string bytes) (t : task) (pc : worker_pc) : state :=
  mkState tbl fs (<[w := mkTask (w_orgId t) (w_jobId t) pc]> (workers s))
    (transfers s).

(** One event.  [None]: the event is not enabled (no such task, or the task
    is not waiting for it).  Requests answer with a response. *)
Definition step (s : state) (e : event) : option (state * option response) :=
  match e with
  | EvStart org t1 t2 =>
      let '(s', r) := start_export s org t1 t2 in Some (s', Some r)
  | EvStatus k now =>
      let '(s', r) := job_status_route s k now in Some (s', Some r)
  | EvDownload k =>
      let '(s', r) := download_route s k in Some (s', Some r)
  | EvOrgReply w r =>
      match workers s !! w with
      | Some t =>
          match w_pc t with
          | AwaitOrg =>
              let '(tbl, pc) := worker_org (jobStatus s) (w_jobId t) r in
              Some (set_worker s w tbl (files s) t pc, None)
          | _ => None
          end
      | None => None
      end
  | EvReportReply w r now =>
      match workers s !! w with
      | Some t =>
          match w_pc t with
          | AwaitReport =>
              let '(tbl, pc) :=
                worker_report (jobStatus s) (w_orgId t) (w_jobId t) r now in
              Some (set_worker s w tbl (files s) t pc, None)
          | _ => None
          end
      | None => None
      end
  | EvWriteDone w o =>
      match workers s !! w with
      | Some t =>
          match w_pc t with
          | AwaitWrite eid data =>
              Some (set_worker s w
                      (worker_write (jobStatus s) (w_jobId t) eid o)
                      (write_effect (filePath eid) data o (files s))
                      t Finished, None)
          | _ => None
          end
      | None => None
      end
  | EvSent d ok =>
      match transfers s !! d with
      | Some tr =>
          match d_pc tr with
          | Sending =>
              Some (mkState (jobStatus s) (files s) (workers s)
                      (<[d := download_sent tr ok]> (transfers s)), None)
          | _ => None
          end
      | None => None
      end
  | EvUnlinked d =>
      match transfers s !! d with
      | Some tr =>
          match d_pc tr with
          | Unlinking =>
              Some (mkState (jobStatus s) (unlink (d_path tr) (files s))
                      (workers s)
                      (<[d := mkTransfer (d_path tr) Closed]> (transfers s)),
                    None)
          | _ => None
          end
      | None => None
      end
  end.

(** A run: the state after a list of events and the responses given. *)
Fixpoint run (s : state) (tr : list event) : option (state * list response) :=
  match tr with
  | [] => Some (s, [])
  | e :: tr' =>
      match step s e with
      | Some (s', o) =>
          match run s' tr' with
          | Some (s'', rs) => Some (s'', (option_list o ++ rs)%list)
          | None => None
          end
      | None => None
      end
  end.

Definition reachable (s : state) : Prop := ∃ tr rs, run init tr = Some (s, rs).

(** The job ids the start route built along a run. *)
Definition started_ids (tr : list event) : list string :=
  flat_map (λ e, match e with
                 | EvStart org t1 _ => [savings_export_id org t1]
                 | _ => []
                 end) tr.

(** ** What a worker may do to the table, and invariants of runs *)

(** The writes of the worker to the record of its job [k], with the program
    point the worker is at afterwards: none, the name, the completion, the
    failure. *)
Inductive worker_upd (k : string) (tbl : gmap string Job)
  : gmap string Job → worker_pc → Prop :=
  | wu_skip pc : worker_upd k tbl tbl pc
  | wu_name j n :
      tbl !! k = Some j →
      worker_upd k tbl (<[k := set_orgName n j]> tbl) AwaitReport
  | wu_completed j e :
      tbl !! k = Some j → e ≠ "" →
      worker_upd k tbl (<[k := set_completed e j]> tbl) Finished
  | wu_error j m :
      tbl !! k = Some j → m ≠ "" →
      worker_upd k tbl (<[k := set_error m j]> tbl) Finished.

(** The four kinds of step, as far as the table and the tasks go. *)
Inductive step_kind (s s' : state) : event → Prop :=
  | sk_start org t1 t2 :
      jobStatus s'
      = <[savings_export_id org t1 := mkJob Processing org None None t2 None]>
          (jobStatus s) →
      workers s' = (workers s ++ [mkTask org (savings_export_id org t1) AwaitOrg])%list →
      step_kind s s' (EvStart org t1 t2)
  | sk_status k now :
      jobStatus s' = sweep now (jobStatus s) →
      workers s' = workers s →
      step_kind s s' (EvStatus k now)
  | sk_worker e w t pc' :
      started_ids [e] = [] →
      workers s !! w = Some t →
      w_pc t ≠ Finished →
      workers s' = <[w := mkTask (w_orgId t) (w_jobId t) pc']> (workers s) →
      worker_upd (w_jobId t) (jobStatus s) (jobStatus s') pc' →
      (∀ eid d, pc' = AwaitWrite eid d → eid ≠ "") →
      step_kind s s' e
  | sk_other e :
      started_ids [e] = [] →
      jobStatus s' = jobStatus s →
      workers s' = workers s →
      step_kind s s' e.

(** Every task works on an id of the start route, which is no member of
    [Object.prototype], and a pending write has a non-empty export id. *)
Definition tasks_wf (s : state) : Prop :=
  ∀ w t, workers s !! w = Some t →
    (w_jobId t ∉ object_prototype_names)
    ∧ (∀ eid d, w_pc t = AwaitWrite eid d → eid ≠ "").

(** Every record: its key is an id of the start route, a completed job has
    its export id and a failed job its message. *)
Definition table_wf (s : state) : Prop :=
  ∀ k j, jobStatus s !! k = Some j →
    (k ∉ object_prototype_names)
    ∧ (status j = Completed → truthy (exportId j) = true)
    ∧ (status j = Error → truthy (error j) = true).

Definition state_wf (s : state) : Prop := tasks_wf s ∧ table_wf s.

(** The two equivalences of the data model. *)
Definition job_exact (j : Job) : Prop :=
  (truthy (exportId j) = true ↔ status j = Completed)
  ∧ (truthy (error j) = true ↔ status j = Error).

(** [k] was built at most once among [ids], the ids of the start route. *)
Definition once (k : string) (ids : list string) : Prop :=
  NoDup (filter (λ x, x = k) ids).

(** Invariant for a job id [k] that the start route built at most once;
    [ids] are the ids built so far. *)
Record id_inv (k : string) (ids : list string) (s : state) : Prop := mkIdInv {
  ii_table : is_Some (jobStatus s !! k) → k ∈ ids;
  ii_tasks : ∀ w t, workers s !! w = Some t → w_jobId t = k → k ∈ ids;
  ii_one : ∀ w w' t t',
    workers s !! w = Some t → workers s !! w' = Some t' →
    w_jobId t = k → w_jobId t' = k → w = w';
  ii_exact : ∀ j, jobStatus s !! k = Some j → job_exact j;
  ii_done : ∀ j w t,
    jobStatus s !! k = Some j → status j ≠ Processing →
    workers s !! w = Some t → w_jobId t = k → w_pc t = Finished
}.

(** The record of [k], once terminal with status [c], as later states see
    it: no worker of [k] is running, and the record, if still there, has
    status [c]. *)
Record settled (k : string) (c : job_status) (s : state) : Prop := mkSettled {
  st_workers : ∀ w t, workers s !! w = Some t → w_jobId t = k → w_pc t = Finished;
  st_status : ∀ j, jobStatus s !! k = Some j → status j = c
}.

(** ** Scenarios *)

Definition state_after (tr : list event) : state :=
  from_option fst init (run init tr).

Definition zip : bytes := [Byte.x50; Byte.x4b; Byte.x03; Byte.x04].

(** Organization 42 at clock 1000; the worker gets the name and the report
    and writes the zip at clock 2000. *)
Definition acme_run : list event :=
  [ EvStart "42" 1000 1000;
    EvOrgReply 0 (AxOk (DataOrg (Some "Acme")));
    EvReportReply 0 (AxOk zip) 2000;
    EvWriteDone 0 WriteOk ].

(** Then the client downloads the zip and the server unlinks it. *)
Definition acme_download : list event :=
  [ EvDownload "savings-export-42-1000"; EvSent 0 true; EvUnlinked 0 ].

(** Two requests for organization 42 within the same millisecond: the
    first worker completes, the second then fails on the name lookup. *)
Definition same_ms_first : list event :=
  [ EvStart "42" 1000 1000;
    EvStart "42" 1000 1000;
    EvOrgReply 0 (AxOk (DataOrg (Some "Acme")));
    EvReportReply 0 (AxOk zip) 2000;
    EvWriteDone 0 WriteOk ].

Definition same_ms_second : list event :=
  [ EvOrgReply 1 (AxErr "timeout of 30000ms exceeded") ].

(** The worker has the report in hand and the write is pending. *)
Definition write_pending_run : list event :=
  [ EvStart "42" 1000 1000;
    EvOrgReply 0 (AxOk (DataOrg (Some "Acme")));
    EvReportReply 0 (AxOk zip) 2000 ].

(** The disk fills up during the write: an incomplete file stays behind. *)
Definition disk_full : write_outcome :=
  WriteErr "ENOSPC: no space left on device, write" (Some [Byte.x50]).

(** The name lookup fails. *)
Definition lookup_fails_run : list event :=
  [ EvStart "42" 1000 1000; EvOrgReply 0 (AxErr "Network Error") ].

(** A reply of the name lookup that carries no name. *)
Definition no_name (d : org_data) : Prop :=
  d = DataNoOrg ∨ d = DataOrg None ∨ d = DataOrg (Some "").

(** The report is slow: the record is swept by a status query (of any id)
    more than an hour after the start, before the report arrives. *)
Definition swept_while_waiting_run : list event :=
  [ EvStart "42" 1000 1000;
    EvOrgReply 0 (AxOk (DataOrg (Some "Acme")));
    EvStatus "savings-export-7-5" 3700000 ].

(** Some worker of job [k] has not finished: it awaits the name, the report
    or the write. *)
Definition running (s : state) (k : string) : Prop :=
  ∃ w t, workers s !! w = Some t ∧ w_jobId t = k ∧ w_pc t ≠ Finished.

(** ** The page: starting an export and polling it

    The script of [org_detail.html] starts an export with
    [startSavingsExport] and polls it with [pollJobStatus].  Of a JSON body
    it reads four fields. *)

Definition status_string (st : job_status) : string :=
  match st with
  | Processing => "processing"
  | Completed => "completed"
  | Error => "error"
  end.

(** [data.status], [data.exportId], [data.error], [data.jobId]; [None] is
    [undefined] or [null]. *)
Record client_data := mkData {
  c_status : option string;
  c_exportId : option string;
  c_error : option string;
  c_jobId : option string
}.

(** [res.json(jobStatus[jobId])] for a job record. *)
Definition job_json (j : Job) : client_data :=
  mkData (Some (status_string (status j))) (exportId j) (error j) None.

(** [await response.json()] on the answers of the server; [None]: the
    promise is rejected.  [JSON.stringify] of the function members of
    [Object.prototype] is [undefined] (an empty body), of [__proto__] it is
    the empty object; a zip is no JSON. *)
Definition response_json (r : response) : option client_data :=
  match r with
  | StartJson st _ id => Some (mkData (Some st) None None (Some id))
  | StatusJson (VJob j) => Some (job_json j)
  | StatusJson (VInherited n) =>
      if bool_decide (n = "__proto__") then Some (mkData None None None None)
      else None
  | NotFound e => Some (mkData None None (Some e) None)
  | SendFile _ _ => None
  end.

(** A call of [showNotification]; [n_click] is where the [onClick] handler
    navigates to. *)
Record notice := mkNotice {
  n_title : string;
  n_message : string;
  n_type : string;
  n_click : option string
}.

(** What one tick of the polling interval does: [clearInterval], a
    notification, the download scheduled by [setTimeout]. *)
Record poll_effects := mkPoll {
  pe_stop : bool;
  pe_notice : option notice;
  pe_download : option string
}.

Definition keep_polling : poll_effects := mkPoll false None None.

(** The body of the interval callback of [pollJobStatus(jobId)], after the
    fetch; [None] is a rejected fetch or body. *)
Definition poll_tick (jobId : string) (body : option client_data) : poll_effects :=
  match body with
  | Some d =>
      if bool_decide (c_status d = Some "completed") && truthy (c_exportId d) then
        mkPoll true
          (Some (mkNotice "Export Complete"
                   "Your savings analysis is ready for download" "success"
                   (Some ("/api/download/" +:+ jobId))))
          (Some ("/api/download/" +:+ jobId))
      else if bool_decide (c_status d = Some "error") then
        mkPoll true
          (Some (mkNotice "Export Failed"
                   (opt_or (c_error d) "Unknown error occurred") "error" None))
          None
      else keep_polling
  | None =>
      mkPoll true
        (Some (mkNotice "Error" "Failed to check export status" "error" None))
        None
  end.

(** [startSavingsExport]: the notifications it shows and the id it starts
    to poll. *)
Definition start_tick (body : option client_data) : list notice * option string :=
  let started :=
    mkNotice "Export Started"
      "Your savings analysis is being processed. You can continue using the application."
      "warning" None in
  match body with
  | Some d =>
      if bool_decide (c_status d = Some "processing") && truthy (c_jobId d) then
        ([started], c_jobId d)
      else
        ([started; mkNotice "Error" "Failed to start export process" "error" None],
         None)
  | None =>
      ([started; mkNotice "Error" "Failed to start export" "error" None], None)
  end.

(** ** The page against the server

    The page puts an id into the path of its request, and the route reads
    it from there.  What [fetch] and the router make of a path is not
    followed here: only ids of letters, digits, [-] and [_] are taken, which
    both leave as they are, and the other ids are left out. *)

Definition url_char (c : Ascii.ascii) : bool :=
  let n := Ascii.N_of_ascii c in
  ((48 <=? n) && (n <=? 57) || (65 <=? n) && (n <=? 90)
   || (97 <=? n) && (n <=? 122) || (n =? 45) || (n =? 95))%N.

Fixpoint url_chars (s : string) : bool :=
  match s with
  | "" => true
  | String c s' => url_char c && url_chars s'
  end.

Definition url_safe (id : string) : bool :=
  negb (bool_decide (id = "")) && url_chars id.

Definition lower_char (c : Ascii.ascii) : Ascii.ascii :=
  let n := Ascii.N_of_ascii c in
  if ((65 <=? n) && (n <=? 90))%N then Ascii.ascii_of_N (n + 32) else c.

Fixpoint lower (s : string) : string :=
  match s with
  | "" => ""
  | String c s' => String (lower_char c) (lower s')
  end.

(** The organization ids with which [/org/<id>/download_monthly_savings_csv]
    gets to the start route: [/org/disable/:id] and [/org/enable/:id] are
    registered before it and are matched without regard to case. *)
Definition org_segment (org : string) : bool :=
  url_safe org && negb (bool_decide (lower org ∈ ["disable"; "enable"])).

(** A click whose request reached the start route with the id. *)
Definition start_answered (s : state) (org : string) (t_id t_created : Z)
  : state * (list notice * option string) :=
  let '(s', r) := start_export s org t_id t_created in
  (s', start_tick (response_json r)).

(** One click on the savings link, [startSavingsExport(orgId)]. *)
Definition client_start (s : state) (org : string) (t_id t_created : Z)
  : option (state * (list notice * option string)) :=
  if org_segment org then Some (start_answered s org t_id t_created) else None.

(** A tick whose request reached the status route with the id. *)
Definition poll_answered (s : state) (jobId : string) (now : Z)
  : state * poll_effects :=
  let '(s', r) := job_status_route s jobId now in
  (s', poll_tick jobId (response_json r)).

(** A tick of the poller, [fetch(`/api/job-status/${jobId}`)] and what
    follows. *)
Definition client_poll (s : state) (jobId : string) (now : Z)
  : option (state * poll_effects) :=
  if url_safe jobId then Some (poll_answered s jobId now) else None.

(** ** The page: notifications

    [showNotification] keeps its notifications as elements of the body.  An
    element is known by its handle; [timers] are the handles whose
    [setTimeout] of 10 s is pending.  The old notifications are compared
    by the text of their heading, which is the title they were made with
    when title and message hold no markup and nothing that the HTML parser
    drops or rewrites ([plain]), as all titles of the page do; a call with
    such characters in them is left out ([page_step]). *)

Definition plain (title : string) : bool :=
  forallb (λ c, negb (bool_decide (String c "" = "<"))
                && negb (bool_decide (String c "" = "&"))
                && negb (bool_decide (c = Ascii.ascii_of_nat 0))
                && negb (bool_decide (c = Ascii.ascii_of_nat 13)))
    (String.list_ascii_of_string title).

Record page := mkPage {
  shown : list (nat * notice);
  next_handle : nat;
  timers : list nat
}.

Definition empty_page : page := mkPage [] 0 [].

(** [showNotification(title, message, type, onClick)] *)
Definition showNotification (pg : page) (n : notice) : page :=
  let kept := filter (λ hn : nat * notice, n_title hn.2 ≠ n_title n) (shown pg) in
  mkPage (kept ++ [(next_handle pg, n)]) (S (next_handle pg))
    (if bool_decide (n_type n = "error") then timers pg
     else timers pg ++ [next_handle pg]).

(** [notification.remove()] *)
Definition remove_notification (h : nat) (l : list (nat * notice))
  : list (nat * notice) :=
  filter (λ hn : nat * notice, hn.1 ≠ h) l.

Inductive page_event :=
  | PShow (n : notice)     (* a call of showNotification *)
  | PClose (h : nat)       (* a click on the close button of [h] *)
  | PTimer (h : nat).      (* the 10 s of [h] are over *)

(** [None]: title or message is not plain, the button is not on the page,
    or no such timer is pending. *)
Definition page_step (pg : page) (e : page_event) : option page :=
  match e with
  | PShow n =>
      if plain (n_title n) && plain (n_message n)
      then Some (showNotification pg n) else None
  | PClose h =>
      if bool_decide (h ∈ (shown pg).*1) then
        Some (mkPage (remove_notification h (shown pg)) (next_handle pg) (timers pg))
      else None
  | PTimer h =>
      if bool_decide (h ∈ timers pg) then
        (* if (document.body.contains(notification)) notification.remove() *)
        Some (mkPage (remove_notification h (shown pg)) (next_handle pg)
                (filter (λ x, x ≠ h) (timers pg)))
      else None
  end.

Fixpoint page_run (pg : page) (es : list page_event) : option page :=
  match es with
  | [] => Some pg
  | e :: es' =>
      match page_step pg e with
      | Some pg' => page_run pg' es'
      | None => None
      end
  end.

(** Handles are given out once, and an error notification has no timer. *)
Record page_wf (pg : page) : Prop := mkPageWf {
  pw_shown : ∀ h n, (h, n) ∈ shown pg → (h < next_handle pg)%nat;
  pw_timers : ∀ h, h ∈ timers pg → (h < next_handle pg)%nat;
  pw_titles : NoDup ((λ hn : nat * notice, n_title hn.2) <$> shown pg);
  pw_error : ∀ h n, (h, n) ∈ shown pg → n_type n = "error" → h ∉ timers pg
}.

(** ** The pages: the organization id of the address

    [org_detail.html] and [org_summary.html] read the id with
    [window.location.pathname.split('/')[2]]. *)

(** [s.split('/')] *)
Fixpoint split_slash (s : string) : list string :=
  match s with
  | "" => [""]
  | String c s' =>
      if bool_decide (String c "" = "/") then "" :: split_slash s'
      else match split_slash s' with
           | x :: xs => String c x :: xs
           | [] => [String c ""]
           end
  end.

(** [path.split('/')[2]]; [None] is [undefined]. *)
Definition org_id_of_path (pathname : string) : option string :=
  split_slash pathname !! 2%nat.

Definition no_slash (id : string) : bool :=
  forallb (λ c, negb (bool_decide (String c "" = "/")))
    (String.list_ascii_of_string id).

(** ** The summary: the server route and the page

    Of a JSON value the code asks whether a property can be read off it
    (not off [undefined] or [null]) and whether it is truthy. *)

Inductive jv :=
  | JAbsent    (* undefined or null *)
  | JFalsy     (* 0, the empty string, false *)
  | JTruthy.

(** A JSON body as far as its [org] and [summary] are looked at. *)
Record summary_body := mkBody {
  sb_org : jv;
  sb_summary : jv
}.

(** How the call of the backend ends: with data ([None]: [null] or
    [undefined]), with an HTTP error, without a response, or before the
    request was sent. *)
Inductive backend_outcome :=
  | BkData (d : option summary_body)
  | BkHttpError (status : Z)
  | BkNoResponse
  | BkSetupError (message : string).

Inductive summary_answer :=
  | SumOk (d : summary_body)                  (* res.json(response.data) *)
  | SumErr (status : Z) (error : string).     (* res.status(..).json({error..}) *)

(** [app.get('/api/org/:id/summary')].  [Object.keys(response.data)] throws
    a [TypeError] on [null] and [undefined]; that error has neither
    [response] nor [request]. *)
Definition summary_route (b : backend_outcome) : summary_answer :=
  match b with
  | BkData None => SumErr 500 "Request configuration error"
  | BkData (Some d) =>
      match sb_summary d with
      | JTruthy => SumOk d
      | _ => SumErr 500 "Invalid data structure from backend"
      end
  | BkHttpError status => SumErr status "Backend error"
  | BkNoResponse => SumErr 504 "Backend timeout"
  | BkSetupError _ => SumErr 500 "Request configuration error"
  end.

(** The body the page parses: the error bodies of the route have no [org]
    and no [summary]. *)
Definition answer_body (a : summary_answer) : summary_body :=
  match a with
  | SumOk d => d
  | SumErr _ _ => mkBody JAbsent JAbsent
  end.

Inductive summary_view :=
  | ShowSummary     (* the table *)
  | ShowFailed      (* "Failed to load summary data." *)
  | ShowError.      (* "Error loading summary data." *)

(** [loadSummaryData] of [org_summary.html] after the fetch:
    [console.log(.., data.org.org)] throws when [data.org] is [undefined]
    or [null], before the test [data.org && data.summary]. *)
Definition loadSummaryData (d : summary_body) : summary_view :=
  match sb_org d with
  | JAbsent => ShowError
  | JFalsy => ShowFailed
  | JTruthy =>
      match sb_summary d with
      | JTruthy => ShowSummary
      | _ => ShowFailed
      end
  end.

(** * Properties *)

(** ** Identifiers *)

Lemma savings_export_id_not_inherited org now :
  savings_export_id org now ∉ object_prototype_names.
Proof.
  unfold savings_export_id, object_prototype_names. cbn [String.append].
  intros H. repeat (apply elem_of_cons in H as [H | H]; [discriminate H |]).
  by apply elem_of_nil in H.
Qed.

Lemma savings_export_id_nonempty org now : savings_export_id org now ≠ "".
Proof. unfold savings_export_id. cbn [String.append]. discriminate. Qed.

(** For one organization, different clock readings give different ids. *)
Lemma savings_export_id_inj_time org t1 t2 :
  savings_export_id org t1 = savings_export_id org t2 → t1 = t2.
Proof.
  unfold savings_export_id. intros H.
  apply (inj (String.append _)) in H.
  apply (inj (String.append _)) in H.
  apply (inj (String.append _)) in H.
  by apply (inj pretty) in H.
Qed.

Lemma js_get_own tbl k j : tbl !! k = Some j → js_get tbl k = Some (VJob j).
Proof. unfold js_get. by intros ->. Qed.

Lemma js_get_id tbl org now :
  js_get tbl (savings_export_id org now)
  = VJob <$> tbl !! savings_export_id org now.
Proof.
  unfold js_get. destruct (tbl !! _); [done |].
  rewrite bool_decide_eq_false_2; [done |].
  apply savings_export_id_not_inherited.
Qed.

(** ** The clean-up loop *)

Lemma sweep_one_lookup now a (tbl : gmap string Job) k :
  sweep_one now a tbl !! k
  = match tbl !! k with
    | Some j => if expired now j && bool_decide (k = a) then None else Some j
    | None => None
    end.
Proof.
  unfold sweep_one. destruct (tbl !! a) as [ja |] eqn:Ha.
  - destruct (expired now ja) eqn:Hea.
    + destruct (decide (k = a)) as [-> | Hne].
      * rewrite lookup_delete_eq, Ha, Hea. by rewrite bool_decide_eq_true_2.
      * rewrite lookup_delete_ne by done. destruct (tbl !! k); [| done].
        by rewrite bool_decide_eq_false_2, andb_false_r.
    + destruct (tbl !! k) as [j |] eqn:Hk; [| done].
      destruct (decide (k = a)) as [-> | Hne].
      * assert (ja = j) as -> by congruence. by rewrite Hea.
      * by rewrite bool_decide_eq_false_2, andb_false_r.
  - destruct (tbl !! k) as [j |] eqn:Hk; [| done].
    rewrite bool_decide_eq_false_2, andb_false_r; [done | congruence].
Qed.

Lemma sweep_loop_lookup now (l : list string) (tbl : gmap string Job) k :
  foldl (λ acc id, sweep_one now id acc) tbl l !! k
  = match tbl !! k with
    | Some j => if expired now j && bool_decide (k ∈ l) then None else Some j
    | None => None
    end.
Proof.
  revert tbl. induction l as [| a l IH]; intros tbl; cbn [foldl].
  - destruct (tbl !! k); [| done]. by rewrite andb_false_r.
  - rewrite IH, sweep_one_lookup.
    destruct (tbl !! k) as [j |]; [| done].
    destruct (expired now j) eqn:He; cbn; [| by rewrite He].
    destruct (decide (k = a)) as [-> | Hne].
    + rewrite (bool_decide_eq_true_2 (a = a)) by done.
      rewrite bool_decide_eq_true_2; [done | by left].
    + rewrite (bool_decide_eq_false_2 (k = a)) by done. rewrite He. cbn.
      apply (f_equal (λ b : bool, if b then None else Some j)).
      apply bool_decide_ext. rewrite elem_of_cons.
      split; [by right | by intros [? | ?]].
Qed.

(** After the loop exactly the records that pass the test are gone. *)
Lemma sweep_lookup now (tbl : gmap string Job) k :
  sweep now tbl !! k
  = match tbl !! k with
    | Some j => if expired now j then None else Some j
    | None => None
    end.
Proof.
  unfold sweep. rewrite sweep_loop_lookup.
  destruct (tbl !! k) as [j |] eqn:Hk; [| done].
  rewrite bool_decide_eq_true_2; [by rewrite andb_true_r |].
  apply list_elem_of_fmap. exists (k, j). split; [done |].
  by apply elem_of_map_to_list.
Qed.

(** ** The worker's writes *)

Lemma str_or_nonempty x d : d ≠ "" → str_or x d ≠ "".
Proof. unfold str_or. by case_bool_decide. Qed.

Lemma catch_block_upd tbl k m pc :
  pc = Finished → worker_upd k tbl (catch_block tbl k m) pc.
Proof.
  intros ->. unfold catch_block, js_get.
  destruct (tbl !! k) as [j |] eqn:Hk.
  - eapply wu_error; [done |]. by apply str_or_nonempty.
  - case_bool_decide; constructor.
Qed.

Lemma worker_org_upd tbl k r tbl' pc :
  worker_org tbl k r = (tbl', pc) → worker_upd k tbl tbl' pc.
Proof.
  unfold worker_org. destruct r as [d | m]; cbn.
  - destruct d as [| | n]; cbn.
    + intros [= <- <-]. by apply catch_block_upd.
    + unfold assign_orgName, js_get.
      destruct (tbl !! k) as [j |] eqn:Hk; cbn.
      * intros [= <- <-]. by constructor.
      * case_bool_decide; cbn; intros [= <- <-];
          [constructor | by apply catch_block_upd].
    + unfold assign_orgName, js_get.
      destruct (tbl !! k) as [j |] eqn:Hk; cbn.
      * intros [= <- <-]. by constructor.
      * case_bool_decide; cbn; intros [= <- <-];
          [constructor | by apply catch_block_upd].
  - intros [= <- <-]. by apply catch_block_upd.
Qed.

Lemma worker_report_upd tbl org k r now tbl' pc :
  worker_report tbl org k r now = (tbl', pc) → worker_upd k tbl tbl' pc.
Proof.
  unfold worker_report. destruct r as [d | m]; cbn; intros [= <- <-].
  - constructor.
  - by apply catch_block_upd.
Qed.

Lemma worker_write_upd tbl k eid o :
  eid ≠ "" → worker_upd k tbl (worker_write tbl k eid o) Finished.
Proof.
  intros Heid. unfold worker_write. destruct o as [| m part]; cbn.
  - unfold assign_completed, js_get.
    destruct (tbl !! k) as [j |] eqn:Hk; cbn.
    + by constructor.
    + case_bool_decide; cbn; [constructor | by apply catch_block_upd].
  - by apply catch_block_upd.
Qed.

(** ** Steps *)

Lemma step_cases s e s' o :
  tasks_wf s → step s e = Some (s', o) → step_kind s s' e.
Proof.
  intros Hwf. destruct e as [org t1 t2 | k now | k | w r | w r now | w wo | d ok | d];
    cbn [step].
  - intros [= <- <-]. by constructor.
  - unfold job_status_route. destruct (js_get _ _); intros [= <- <-];
      by constructor.
  - unfold download_route. destruct (_ || _); [intros [= <- <-]; by apply sk_other |].
    destruct (negb _); intros [= <- <-]; by apply sk_other.
  - destruct (workers s !! w) as [t |] eqn:Hw; [| done].
    destruct (w_pc t) eqn:Hpc; try done.
    destruct (worker_org _ _ _) as [tbl pc] eqn:Hwo. intros [= <- <-].
    eapply (sk_worker _ _ _ w t pc); cbn; try done.
    + congruence.
    + by eapply worker_org_upd.
    + intros eid d ->. unfold worker_org in Hwo.
      by destruct (bind _ _) in Hwo.
  - destruct (workers s !! w) as [t |] eqn:Hw; [| done].
    destruct (w_pc t) eqn:Hpc; try done.
    destruct (worker_report _ _ _ _ _) as [tbl pc] eqn:Hwo. intros [= <- <-].
    eapply (sk_worker _ _ _ w t pc); cbn; try done.
    + congruence.
    + by eapply worker_report_upd.
    + intros eid d ->. unfold worker_report in Hwo.
      destruct r; cbn in Hwo; [| done].
      injection Hwo as _ <- _. apply savings_export_id_nonempty.
  - destruct (workers s !! w) as [t |] eqn:Hw; [| done].
    destruct (w_pc t) eqn:Hpc; try done.
    intros [= <- <-].
    eapply (sk_worker _ _ _ w t Finished); cbn; try done.
    + congruence.
    + apply worker_write_upd. by eapply (Hwf w t).
  - destruct (transfers s !! d) as [tr |]; [| done].
    destruct (d_pc tr); try done. intros [= <- <-]. by apply sk_other.
  - destruct (transfers s !! d) as [tr |]; [| done].
    destruct (d_pc tr); try done. intros [= <- <-]. by apply sk_other.
Qed.

Lemma worker_upd_lookup k tbl tbl' pc k' j' :
  worker_upd k tbl tbl' pc → tbl' !! k' = Some j' →
  tbl !! k' = Some j'
  ∨ (k' = k ∧ ∃ j, tbl !! k = Some j ∧
      ((∃ n, j' = set_orgName n j ∧ pc = AwaitReport)
       ∨ (∃ e, e ≠ "" ∧ j' = set_completed e j ∧ pc = Finished)
       ∨ (∃ m, m ≠ "" ∧ j' = set_error m j ∧ pc = Finished))).
Proof.
  intros [pc0 | j n Hj | j e Hj He | j m Hj Hm]; [by left | ..];
    (rewrite lookup_insert_Some; intros [[<- <-] | [_ ?]]; [right | by left]);
    (split; [done |]); exists j; (split; [done |]); eauto 6.
Qed.

Lemma worker_upd_is_Some k tbl tbl' pc k' :
  worker_upd k tbl tbl' pc → is_Some (tbl' !! k') → is_Some (tbl !! k').
Proof.
  intros Hu [j' Hj'].
  destruct (worker_upd_lookup _ _ _ _ _ _ Hu Hj') as [? | (-> & j & ? & _)]; eauto.
Qed.

(** A task after a worker step: same job, and only the stepping one moved. *)
Lemma set_pc_lookup (ws : list task) w t pc x t' :
  ws !! w = Some t →
  <[w := mkTask (w_orgId t) (w_jobId t) pc]> ws !! x = Some t' →
  ∃ t0, ws !! x = Some t0 ∧ w_jobId t0 = w_jobId t'
        ∧ (x ≠ w → t' = t0) ∧ (x = w → t0 = t ∧ w_pc t' = pc).
Proof.
  intros Hw. rewrite list_lookup_insert_Some.
  intros [(-> & <- & _) | [Hne Hx]].
  - exists t. by repeat split.
  - exists t'. repeat split; [done | congruence..].
Qed.

Lemma tasks_wf_step s e s' : tasks_wf s → step_kind s s' e → tasks_wf s'.
Proof.
  intros Hwf Hk w0 t0.
  destruct Hk as [org t1 t2 _ Hws | k now _ Hws | e w t pc' _ Hw _ Hws _ Hpc
                 | e _ _ Hws]; rewrite Hws.
  - rewrite lookup_snoc_Some. intros [[_ Hw0] | [_ <-]]; [by eauto |].
    split; [apply savings_export_id_not_inherited | done].
  - by eauto.
  - rewrite list_lookup_insert_Some.
    intros [(-> & <- & _) | [_ Hw0]]; [| by eauto].
    split; [by apply (Hwf _ _ Hw) | done].
  - by eauto.
Qed.

Lemma table_wf_step s e s' : table_wf s → step_kind s s' e → table_wf s'.
Proof.
  intros Htb Hk k0 j0.
  destruct Hk as [org t1 t2 Htbl _ | k now Htbl _ | e w t pc' _ _ _ _ Hu _
                 | e _ Htbl _].
  - rewrite Htbl, lookup_insert_Some. intros [[<- <-] | [_ Hj]]; [| by eauto].
    split; [apply savings_export_id_not_inherited | by split].
  - rewrite Htbl, sweep_lookup.
    destruct (jobStatus s !! k0) as [j |] eqn:Hj; [| done].
    destruct (expired now j); [done |]. intros [= <-]. by eauto.
  - intros Hj0.
    destruct (worker_upd_lookup _ _ _ _ _ _ Hu Hj0)
      as [? | (-> & j & Hj & Hcase)]; [by eauto |].
    destruct (Htb _ _ Hj) as (Hk & Hc & He). split; [done |].
    destruct Hcase as [(n & -> & _) | [(x & Hx & -> & _) | (m & Hm & -> & _)]];
      cbn; (split; [intros ? | intros ?]); try done; eauto;
      by rewrite bool_decide_eq_false_2.
  - rewrite Htbl. by eauto.
Qed.

Lemma state_wf_step s e s' o :
  state_wf s → step s e = Some (s', o) → state_wf s'.
Proof.
  intros [Hts Htb] Hstep. pose proof (step_cases _ _ _ _ Hts Hstep) as Hk.
  split; [by eapply tasks_wf_step | by eapply table_wf_step].
Qed.

(** ** Runs *)

Lemma run_cons s e tr s'' rs :
  run s (e :: tr) = Some (s'', rs) →
  ∃ s' o rs', step s e = Some (s', o) ∧ run s' tr = Some (s'', rs')
              ∧ rs = (option_list o ++ rs')%list.
Proof.
  cbn [run]. destruct (step s e) as [[s' o] |]; [| done].
  destruct (run s' tr) as [[s0 rs0] |] eqn:Hrun; [| done].
  intros [= <- <-]. by eauto 6.
Qed.

Lemma run_app s tr1 tr2 s1 rs1 :
  run s tr1 = Some (s1, rs1) →
  run s (tr1 ++ tr2)
  = match run s1 tr2 with
    | Some (s2, rs2) => Some (s2, (rs1 ++ rs2)%list)
    | None => None
    end.
Proof.
  revert s rs1. induction tr1 as [| e tr1 IH]; intros s rs1.
  - intros [= <- <-]. cbn. by destruct (run s tr2) as [[? ?] |].
  - intros (s' & o & rs' & Hstep & Hrun & ->)%run_cons.
    cbn [app run]. rewrite Hstep, (IH _ _ Hrun).
    destruct (run s1 tr2) as [[? ?] |]; [| done]. by rewrite (assoc app).
Qed.

Lemma started_ids_cons e tr :
  started_ids (e :: tr) = (started_ids [e] ++ started_ids tr)%list.
Proof. unfold started_ids. cbn. by rewrite app_nil_r. Qed.

Lemma started_ids_app tr1 tr2 :
  started_ids (tr1 ++ tr2) = (started_ids tr1 ++ started_ids tr2)%list.
Proof. unfold started_ids. apply flat_map_app. Qed.

Lemma state_wf_init : state_wf init.
Proof. split; [intros w t Hw; done | intros k j Hk; done]. Qed.

Lemma state_wf_run tr s s' rs :
  state_wf s → run s tr = Some (s', rs) → state_wf s'.
Proof.
  revert s rs. induction tr as [| e tr IH]; intros s rs Hwf.
  - by intros [= <- <-].
  - intros (s1 & o & rs' & Hstep & Hrun & ->)%run_cons.
    eapply IH; [| done]. by eapply state_wf_step.
Qed.

Lemma reachable_wf s : reachable s → state_wf s.
Proof. intros (tr & rs & Hrun). by eapply state_wf_run, Hrun; apply state_wf_init. Qed.

(** ** A job id that is built at most once *)

Lemma once_app_inv k ids ids' : once k (ids ++ ids') → once k ids.
Proof. unfold once. rewrite filter_app. by intros [? _]%NoDup_app. Qed.

Lemma once_snoc_fresh k ids : once k (ids ++ [k]) → k ∉ ids.
Proof.
  unfold once. rewrite filter_app, filter_cons_True, filter_nil by done.
  intros (_ & Hdisj & _)%NoDup_app Hin.
  apply (Hdisj k); [by apply list_elem_of_filter | by left].
Qed.

Lemma NoDup_once k ids : NoDup ids → once k ids.
Proof. apply NoDup_filter. Qed.

Lemma id_inv_init k : id_inv k [] init.
Proof.
  split.
  - intros [j Hj]. done.
  - intros w t Hw. done.
  - intros w w' t t' Hw. done.
  - intros j Hj. done.
  - intros j w t Hj. done.
Qed.

(** A job whose worker is still running is in [Processing], with neither
    export id nor message. *)
Lemma id_inv_running ids s w t j :
  id_inv (w_jobId t) ids s → workers s !! w = Some t → w_pc t ≠ Finished →
  jobStatus s !! w_jobId t = Some j →
  status j = Processing ∧ truthy (exportId j) = false ∧ truthy (error j) = false.
Proof.
  intros Hinv Hw Hpc Hj.
  assert (status j = Processing) as Hst.
  { destruct (decide (status j = Processing)) as [| Hne]; [done |].
    destruct Hpc. by eapply (ii_done _ _ _ Hinv). }
  destruct (ii_exact _ _ _ Hinv _ Hj) as [Hc He]. rewrite Hst in Hc, He.
  split; [done |]. split; apply not_true_is_false.
  - intros Ht. by apply Hc in Ht.
  - intros Ht. by apply He in Ht.
Qed.

Lemma id_inv_step k ids s e s' :
  id_inv k ids s → step_kind s s' e →
  once k (ids ++ started_ids [e]) →
  id_inv k (ids ++ started_ids [e]) s'.
Proof.
  intros Hinv Hk Honce.
  destruct Hk as [org t1 t2 Htbl Hws | k0 now Htbl Hws
                 | e w t pc' He Hw Hpc Hws Hu _ | e He Htbl Hws].
  - (* start *)
    set (kid := savings_export_id org t1) in *.
    change (started_ids [EvStart org t1 t2]) with [kid] in *.
    destruct (decide (kid = k)) as [Heq | Hne].
    + (* the id is [k]: it was never built before *)
      subst k. apply once_snoc_fresh in Honce as Hfresh.
      assert (∀ w t, workers s !! w = Some t → w_jobId t ≠ kid) as Hnone.
      { intros w t Hw Hid. by eapply Hfresh, (ii_tasks _ _ _ Hinv). }
      split.
      * intros _. apply elem_of_app. right. by left.
      * intros w t _ _. apply elem_of_app. right. by left.
      * intros w w' t t'. rewrite Hws, !lookup_snoc_Some.
        intros [[_ Hw] | [-> <-]] [[_ Hw'] | [-> <-]] Hid Hid'; cbn in *;
          [by edestruct Hnone.. | done].
      * intros j. rewrite Htbl, lookup_insert_eq. intros [= <-]. by split; split.
      * intros j w t. rewrite Htbl, lookup_insert_eq. by intros [= <-].
    + (* another id: the record and the workers of [k] are as before *)
      split.
      * rewrite Htbl, lookup_insert_ne by done. intros Hk.
        apply elem_of_app. left. by apply (ii_table _ _ _ Hinv).
      * intros w t. rewrite Hws, lookup_snoc_Some.
        intros [[_ Hw] | [_ <-]] Hid; [| done].
        apply elem_of_app. left. by eapply (ii_tasks _ _ _ Hinv).
      * intros w w' t t'. rewrite Hws, !lookup_snoc_Some.
        intros [[_ Hw] | [_ <-]] [[_ Hw'] | [_ <-]] Hid Hid'; try done.
        by eapply (ii_one _ _ _ Hinv).
      * intros j. rewrite Htbl, lookup_insert_ne by done.
        apply (ii_exact _ _ _ Hinv).
      * intros j w t. rewrite Htbl, lookup_insert_ne, Hws, lookup_snoc_Some by done.
        intros Hj Hst [[_ Hw] | [_ <-]] Hid; [| done].
        by eapply (ii_done _ _ _ Hinv).
  - (* status *)
    rewrite app_nil_r.
    assert (∀ j0, jobStatus s' !! k = Some j0 → jobStatus s !! k = Some j0)
      as Hsub.
    { intros j0. rewrite Htbl, sweep_lookup.
      destruct (jobStatus s !! k) as [j |]; [| done].
      by destruct (expired now j). }
    split; rewrite ?Hws.
    + intros [j0 Hj0]. apply (ii_table _ _ _ Hinv). by eauto.
    + apply (ii_tasks _ _ _ Hinv).
    + apply (ii_one _ _ _ Hinv).
    + intros j0 Hj0. by eapply (ii_exact _ _ _ Hinv), Hsub.
    + intros j0 w t Hj0. by eapply (ii_done _ _ _ Hinv), Hsub.
  - (* worker *)
    rewrite He, app_nil_r. split.
    + intros Hk0. apply (ii_table _ _ _ Hinv). by eapply worker_upd_is_Some.
    + intros x t'. rewrite Hws.
      intros (t0 & Hx & <- & _)%(set_pc_lookup _ _ _ _ _ _ Hw).
      by eapply (ii_tasks _ _ _ Hinv).
    + intros x x' t' t''. rewrite Hws.
      intros (t0 & Hx & <- & _)%(set_pc_lookup _ _ _ _ _ _ Hw).
      intros (t0' & Hx' & <- & _)%(set_pc_lookup _ _ _ _ _ _ Hw).
      by eapply (ii_one _ _ _ Hinv).
    + intros j0 Hj0.
      destruct (worker_upd_lookup _ _ _ _ _ _ Hu Hj0)
        as [? | (-> & j & Hj & Hcase)]; [by eapply (ii_exact _ _ _ Hinv) |].
      destruct (id_inv_running _ _ _ _ _ Hinv Hw Hpc Hj) as (Hst & Hx & Hm).
      destruct Hcase as [(n & -> & _) | [(x & Hne & -> & _) | (m & Hne & -> & _)]];
        unfold job_exact; cbn; rewrite ?Hx, ?Hm, ?Hst;
        rewrite ?bool_decide_eq_false_2 by done; cbn; by repeat split.
    + intros j0 x t' Hj0 Hst0. rewrite Hws.
      intros (t0 & Hx & <- & Hother & Hsame)%(set_pc_lookup _ _ _ _ _ _ Hw) Hid.
      destruct (worker_upd_lookup _ _ _ _ _ _ Hu Hj0)
        as [Hold | (Hkt & j & Hj & Hcase)].
      * destruct (decide (x = w)) as [-> | Hne].
        -- destruct Hpc. destruct (Hsame eq_refl) as [-> _].
           by eapply (ii_done _ _ _ Hinv).
        -- rewrite (Hother Hne). by eapply (ii_done _ _ _ Hinv).
      * assert (x = w) as ->.
        { eapply (ii_one _ _ _ Hinv); [exact Hx | exact Hw | done | congruence]. }
        destruct (Hsame eq_refl) as [-> ->]. subst k.
        destruct (id_inv_running _ _ _ _ _ Hinv Hw Hpc Hj) as (Hst & _).
        by destruct Hcase as [(n & -> & _) | [(? & _ & _ & ->) | (? & _ & _ & ->)]].
  - (* download, transfer *)
    rewrite He, app_nil_r. destruct Hinv as [H1 H2 H3 H4 H5].
    split; rewrite ?Htbl, ?Hws; done.
Qed.

Lemma id_inv_run tr k ids s s' rs :
  state_wf s → id_inv k ids s → once k (ids ++ started_ids tr) →
  run s tr = Some (s', rs) → id_inv k (ids ++ started_ids tr) s'.
Proof.
  revert ids s rs. induction tr as [| e tr IH]; intros ids s rs Hwf Hinv Honce.
  - intros [= <- <-]. cbn. by rewrite app_nil_r.
  - intros (s1 & o & rs' & Hstep & Hrun & ->)%run_cons.
    rewrite started_ids_cons, (assoc app) in Honce |- *.
    eapply IH; [by eapply state_wf_step | | done | done].
    apply (id_inv_step k ids s); [done | | by eapply once_app_inv].
    eapply step_cases; [apply Hwf | done].
Qed.

(** Once the record of [k] is terminal it stays as it is until it is
    swept, and it never comes back. *)
Lemma settled_step ids k c s e s' :
  k ∈ ids → once k (ids ++ started_ids [e]) →
  settled k c s → step_kind s s' e → settled k c s'.
Proof.
  intros Hin Honce [Hws0 Hst0] Hk.
  destruct Hk as [org t1 t2 Htbl Hws | k0 now Htbl Hws
                 | e w t pc' He Hw Hpc Hws Hu _ | e He Htbl Hws].
  - assert (savings_export_id org t1 ≠ k) as Hne.
    { intros <-. by apply once_snoc_fresh in Honce. }
    split.
    + intros w t. rewrite Hws, lookup_snoc_Some.
      intros [[_ Hw] | [_ <-]] Hid; [by eapply Hws0 | by destruct Hne].
    + intros j. rewrite Htbl, lookup_insert_ne by done. apply Hst0.
  - split; rewrite ?Hws; [done |].
    intros j. rewrite Htbl, sweep_lookup.
    destruct (jobStatus s !! k) as [j0 |]; [| done].
    destruct (expired now j0); [done |]. intros [= <-]. by apply Hst0.
  - assert (w_jobId t ≠ k) as Hne.
    { intros Hid. destruct Hpc. by eapply Hws0. }
    split.
    + intros x t'. rewrite Hws.
      intros (t0 & Hx & <- & Hother & Hsame)%(set_pc_lookup _ _ _ _ _ _ Hw) Hid.
      destruct (decide (x = w)) as [-> | Hxw].
      * destruct (Hsame eq_refl) as [-> _]. done.
      * rewrite (Hother Hxw). by eapply Hws0.
    + intros j Hj.
      destruct (worker_upd_lookup _ _ _ _ _ _ Hu Hj) as [? | [? _]];
        [by apply Hst0 | done].
  - split; rewrite ?Htbl, ?Hws; done.
Qed.

Lemma settled_run tr ids k c s s' rs :
  state_wf s → k ∈ ids → once k (ids ++ started_ids tr) →
  settled k c s → run s tr = Some (s', rs) → settled k c s'.
Proof.
  revert ids s rs. induction tr as [| e tr IH]; intros ids s rs Hwf Hin Honce Hset.
  - by intros [= <- <-].
  - intros (s1 & o & rs' & Hstep & Hrun & ->)%run_cons.
    rewrite started_ids_cons, (assoc app) in Honce.
    eapply (IH (ids ++ started_ids [e])%list);
      [by eapply state_wf_step | apply elem_of_app; by left | done | | done].
    eapply (settled_step ids k c s);
      [done | by eapply once_app_inv | done |].
    eapply step_cases; [apply Hwf | done].
Qed.

(** ** The download route *)

Lemma completed_has_export s k j :
  reachable s → jobStatus s !! k = Some j → status j = Completed →
  ∃ eid, exportId j = Some eid ∧ eid ≠ "".
Proof.
  intros [_ Htb]%reachable_wf Hj Hst.
  destruct (Htb _ _ Hj) as (_ & Hc & _). specialize (Hc Hst).
  destruct (exportId j) as [eid |]; [| done]. exists eid. split; [done |].
  intros ->. done.
Qed.

Lemma download_route_sends s k j eid content :
  jobStatus s !! k = Some j → exportId j = Some eid → eid ≠ "" →
  files s !! filePath eid = Some content →
  download_route s k
  = (mkState (jobStatus s) (files s) (workers s)
       (transfers s ++ [mkTransfer (filePath eid) Sending]),
     SendFile (filePath eid)
       (opt_or (orgName j) "organization" +:+ "-savings-analysis.zip")).
Proof.
  intros Hj He Hne Hf. unfold download_route.
  rewrite (js_get_own _ _ _ Hj). cbn [mbind option_bind value_exportId value_orgName].
  rewrite He. cbn [truthy from_option]. unfold id. rewrite Hf.
  rewrite (bool_decide_eq_false_2 (eid = "")) by done.
  by rewrite !bool_decide_eq_true_2 by eauto.
Qed.


(** The download of an existing zip, sent without error, then unlinked. *)
Lemma download_then_unlink s k j eid content :
  jobStatus s !! k = Some j → exportId j = Some eid → eid ≠ "" →
  files s !! filePath eid = Some content →
  ∃ s1 s3,
    download_route s k
    = (s1, SendFile (filePath eid)
             (opt_or (orgName j) "organization" +:+ "-savings-analysis.zip"))
    ∧ jobStatus s1 = jobStatus s
    ∧ run s1 [EvSent (length (transfers s)) true;
              EvUnlinked (length (transfers s))] = Some (s3, [])
    ∧ jobStatus s3 = jobStatus s
    ∧ files s3 = delete (filePath eid) (files s).
Proof.
  intros Hj He Hne Hf.
  set (p := filePath eid). set (d := length (transfers s)).
  set (s1 := mkState (jobStatus s) (files s) (workers s)
               (transfers s ++ [mkTransfer p Sending])).
  assert (transfers s1 !! d = Some (mkTransfer p Sending)) as Hd1
    by (by apply list_lookup_middle).
  set (s2 := mkState (jobStatus s) (files s) (workers s)
               (<[d := mkTransfer p Unlinking]> (transfers s1))).
  assert (step s1 (EvSent d true) = Some (s2, None)) as Hstep1
    by (cbn [step]; by rewrite Hd1).
  assert (transfers s2 !! d = Some (mkTransfer p Unlinking)) as Hd2.
  { apply list_lookup_insert_eq. by eapply lookup_lt_Some. }
  set (s3 := mkState (jobStatus s) (unlink p (files s)) (workers s)
               (<[d := mkTransfer p Closed]> (transfers s2))).
  assert (step s2 (EvUnlinked d) = Some (s3, None)) as Hstep2
    by (cbn [step]; by rewrite Hd2).
  exists s1, s3. split; [by eapply download_route_sends |]. split; [done |].
  split; [| done]. cbn [run]. by rewrite Hstep1, Hstep2.
Qed.

(** ** The status route *)

Lemma job_status_route_table s k now :
  jobStatus (job_status_route s k now).1 = sweep now (jobStatus s)
  ∧ workers (job_status_route s k now).1 = workers s
  ∧ files (job_status_route s k now).1 = files s.
Proof. unfold job_status_route. by destruct (js_get _ _). Qed.

Lemma job_status_route_step s k now :
  step s (EvStatus k now)
  = Some ((job_status_route s k now).1, Some (job_status_route s k now).2).
Proof. cbn. by destruct (job_status_route s k now). Qed.

Lemma job_status_route_job s k now s' j :
  job_status_route s k now = (s', StatusJson (VJob j)) →
  jobStatus s' !! k = Some j.
Proof.
  intros Hr. pose proof (job_status_route_table s k now) as (Htbl & _).
  rewrite Hr in Htbl. cbn in Htbl. rewrite Htbl.
  unfold job_status_route, js_get in Hr.
  destruct (sweep now (jobStatus s) !! k) as [j0 |]; [by injection Hr as _ -> |].
  by case_bool_decide.
Qed.

(** C1, as amended.  For every job id that the start route builds at most
    once in the run: once a status query for the id has answered with a
    terminal status (completed or error), every later status query for that
    id that finds the job answers with the same status, so the job leaves
    [processing] at most once and a terminal status never changes. *)
Theorem terminal_status_is_final
    (tr1 tr2 : list event) (k : string) (now1 now2 : Z)
    (s0 s1 s2 s3 : state) (rs1 rs2 : list response) (j1 j2 : Job) :
  once k (started_ids (tr1 ++ tr2)) →
  run init tr1 = Some (s0, rs1) →
  job_status_route s0 k now1 = (s1, StatusJson (VJob j1)) →
  run s1 tr2 = Some (s2, rs2) →
  job_status_route s2 k now2 = (s3, StatusJson (VJob j2)) →
  terminal (status j1) →
  status j2 = status j1.
Proof.
  intros Hnd Hrun1 Hq1 Hrun2 Hq2 Hterm.
  rewrite started_ids_app in Hnd.
  assert (run init (tr1 ++ [EvStatus k now1])
          = Some (s1, rs1 ++ [StatusJson (VJob j1)])%list) as Hrun1'.
  { rewrite (run_app _ _ _ _ _ Hrun1). cbn [run].
    by rewrite job_status_route_step, Hq1. }
  assert (started_ids (tr1 ++ [EvStatus k now1]) = started_ids tr1) as Hids.
  { rewrite started_ids_app. cbn. by rewrite app_nil_r. }
  assert (state_wf s1) as Hwf1.
  { by eapply state_wf_run, Hrun1'; apply state_wf_init. }
  assert (id_inv k (started_ids tr1) s1) as Hinv1.
  { rewrite <- Hids.
    eapply (id_inv_run _ k [] init s1); [apply state_wf_init | | | done].
    - apply id_inv_init.
    - cbn. rewrite Hids. by eapply once_app_inv. }
  pose proof (job_status_route_job _ _ _ _ _ Hq1) as Hj1.
  assert (settled k (status j1) s1) as Hset1.
  { split.
    - intros w t Hw Hid. eapply (ii_done _ _ _ Hinv1); [done | | done..].
      by destruct Hterm as [-> | ->].
    - intros j Hj. congruence. }
  assert (settled k (status j1) s2) as Hset2.
  { eapply (settled_run tr2 (started_ids tr1)); [done | | done..].
    apply (ii_table _ _ _ Hinv1). by eauto. }
  assert (state_wf s2) as Hwf2 by by eapply state_wf_run.
  pose proof (job_status_route_job _ _ _ _ _ Hq2) as Hj2.
  pose proof (job_status_route_table s2 k now2) as (Htbl & _).
  rewrite Hq2 in Htbl. cbn in Htbl. rewrite Htbl, sweep_lookup in Hj2.
  destruct (jobStatus s2 !! k) as [j |] eqn:Hj; [| done].
  destruct (expired now2 j); [done |]. injection Hj2 as ->.
  by apply (st_status _ _ _ Hset2).
Qed.

Lemma terminal_status_is_final_witness :
  ∃ s1 s3 j1 j2,
    job_status_route (state_after acme_run) "savings-export-42-1000" 3000
    = (s1, StatusJson (VJob j1))
    ∧ job_status_route (state_after (acme_run ++ acme_download)%list)
        "savings-export-42-1000" 9000
      = (s3, StatusJson (VJob j2))
    ∧ status j1 = Completed ∧ status j2 = status j1.
Proof.
  eexists _, _, _, _. split; [vm_compute; reflexivity |].
  split; [vm_compute; reflexivity |]. split; [reflexivity |].
  eapply (terminal_status_is_final acme_run acme_download
            "savings-export-42-1000" 3000 9000 (state_after acme_run)).
  - apply NoDup_once, (bool_decide_unpack _). vm_compute. reflexivity.
  - vm_compute. reflexivity.
  - vm_compute. reflexivity.
  - vm_compute. reflexivity.
  - vm_compute. reflexivity.
  - left. reflexivity.
Defined.

(** C1 as stated fails when two start requests for one organization read
    the same clock value: both workers write the one record, and a status
    query answers completed, a later one error. *)
Lemma terminal_status_changes_on_same_id :
  ¬ (∀ (tr1 tr2 : list event) (k : string) (now1 now2 : Z)
       (s0 s1 s2 s3 : state) (rs1 rs2 : list response) (j1 j2 : Job),
       run init tr1 = Some (s0, rs1) →
       job_status_route s0 k now1 = (s1, StatusJson (VJob j1)) →
       run s1 tr2 = Some (s2, rs2) →
       job_status_route s2 k now2 = (s3, StatusJson (VJob j2)) →
       terminal (status j1) →
       status j2 = status j1).
Proof.
  intros H.
  pose (s0 := state_after same_ms_first).
  pose (q1 := job_status_route s0 "savings-export-42-1000" 3000).
  pose (s2 := from_option fst init (run q1.1 same_ms_second)).
  pose (q2 := job_status_route s2 "savings-export-42-1000" 4000).
  specialize (H same_ms_first same_ms_second "savings-export-42-1000" 3000 4000
                s0 q1.1 s2 q2.1 (from_option snd [] (run init same_ms_first)) []
                (mkJob Completed "42" (Some "savings-export-42-2000") None 1000
                   (Some "Acme"))
                (mkJob Error "42" (Some "savings-export-42-2000")
                   (Some "timeout of 30000ms exceeded") 1000 (Some "Acme"))).
  assert (Error = Completed) as Habs; [| discriminate Habs].
  apply H.
  - vm_compute. reflexivity.
  - vm_compute. reflexivity.
  - vm_compute. reflexivity.
  - vm_compute. reflexivity.
  - left. reflexivity.
Qed.

(** ** Export id and message against the status *)

(** C6, as amended.  In every reachable job record a completed job has a
    non-empty export id and a failed job a non-empty message; for a job id
    that the start route built at most once the converses hold as well: the
    export id is non-empty exactly when the status is completed, the message
    exactly when it is error.  Reachable covers every operation: create, the
    worker's writes, the sweep. *)
Theorem export_id_and_error_follow_status
    (tr : list event) (s : state) (rs : list response) (k : string) (j : Job) :
  run init tr = Some (s, rs) →
  jobStatus s !! k = Some j →
  (status j = Completed → truthy (exportId j) = true)
  ∧ (status j = Error → truthy (error j) = true)
  ∧ (once k (started_ids tr) → job_exact j).
Proof.
  intros Hrun Hj.
  assert (state_wf s) as [_ Htb] by (apply reachable_wf; by exists tr, rs).
  destruct (Htb _ _ Hj) as (_ & Hc & He).
  split; [done |]. split; [done |]. intros Honce.
  assert (id_inv k ([] ++ started_ids tr) s) as Hinv.
  { eapply id_inv_run; [apply state_wf_init | apply id_inv_init | | done].
    done. }
  by eapply (ii_exact _ _ _ Hinv).
Qed.

Lemma export_id_and_error_follow_status_witness :
  ∃ j, jobStatus (state_after acme_run) !! "savings-export-42-1000" = Some j
       ∧ status j = Completed
       ∧ exportId j = Some "savings-export-42-2000"
       ∧ job_exact j.
Proof.
  eexists. split; [vm_compute; reflexivity |].
  split; [reflexivity |]. split; [reflexivity |].
  eapply (export_id_and_error_follow_status acme_run (state_after acme_run) _
            "savings-export-42-1000").
  - vm_compute. reflexivity.
  - vm_compute. reflexivity.
  - apply NoDup_once, (bool_decide_unpack _). vm_compute. reflexivity.
Defined.

(** C6 as stated fails when two workers share a job id: after the first
    completed and the second failed, the record has status error and still
    carries the export id. *)
Lemma export_id_without_completed_on_same_id :
  ¬ (∀ (tr : list event) (s : state) (rs : list response) (k : string) (j : Job),
       run init tr = Some (s, rs) →
       jobStatus s !! k = Some j →
       job_exact j).
Proof.
  intros H.
  specialize (H (same_ms_first ++ same_ms_second)%list
                (state_after (same_ms_first ++ same_ms_second)%list)
                (from_option snd []
                   (run init (same_ms_first ++ same_ms_second)%list))
                "savings-export-42-1000"
                (mkJob Error "42" (Some "savings-export-42-2000")
                   (Some "timeout of 30000ms exceeded") 1000 (Some "Acme"))).
  destruct H as [Hx _].
  - vm_compute. reflexivity.
  - vm_compute. reflexivity.
  - cbn in Hx. by destruct Hx as [Hx _]; specialize (Hx eq_refl).
Qed.

(** ** The start route *)

(** C8, as amended.  For every organization id and clock readings the start
    route answers at once with status processing and the job id
    [savings-export-<orgId>-<clock>]; afterwards the table holds under that
    id a record with status processing, the organization, the second clock
    reading as [created], and neither export id nor message; the other
    records and the files are untouched, and the worker has been spawned and
    waits for its first remote reply.  The id is a function of organization
    and clock: for one organization, different readings give different
    ids. *)
Theorem start_export_postcondition
    (s : state) (org : string) (t_id t_created : Z) :
  let jobId := savings_export_id org t_id in
  let s' := (start_export s org t_id t_created).1 in
  step s (EvStart org t_id t_created)
  = Some (s', Some (StartJson "processing"
                      "Export started. You will be notified when complete."
                      jobId))
  ∧ jobStatus s' !! jobId = Some (mkJob Processing org None None t_created None)
  ∧ (∀ k, k ≠ jobId → jobStatus s' !! k = jobStatus s !! k)
  ∧ files s' = files s
  ∧ workers s' = (workers s ++ [mkTask org jobId AwaitOrg])%list
  ∧ (∀ t, savings_export_id org t = jobId → t = t_id).
Proof.
  cbn. split; [done |]. split; [by rewrite lookup_insert_eq |].
  split; [intros k Hk; by rewrite lookup_insert_ne |].
  split; [done |]. split; [done |].
  intros t. apply savings_export_id_inj_time.
Qed.

(** C8 as stated fails on "freshly allocated": a second start request for
    the same organization within the same millisecond gets the id of the job
    that is already stored. *)
Lemma start_export_id_not_fresh :
  ¬ (∀ (s : state) (org : string) (t_id : Z),
       reachable s → jobStatus s !! savings_export_id org t_id = None).
Proof.
  intros H. specialize (H (state_after [EvStart "42" 1000 1000]) "42" 1000).
  assert (reachable (state_after [EvStart "42" 1000 1000])) as Hr.
  { eexists [EvStart "42" 1000 1000], _. vm_compute. reflexivity. }
  specialize (H Hr). vm_compute in H. discriminate H.
Qed.

(** ** Files written by the worker *)

(** C7, as amended.  The replies to the name lookup and to the report
    request, failed or not, leave the files as they are, so a worker that
    fails there has written nothing.  A successful write puts exactly the
    report at the path of the export id.  After a failed write the worker
    removes nothing: the files are as the write left them. *)
Theorem worker_files (s s' : state) (w : nat) (o : option response) :
  (∀ r, step s (EvOrgReply w r) = Some (s', o) → files s' = files s)
  ∧ (∀ r now, step s (EvReportReply w r now) = Some (s', o) → files s' = files s)
  ∧ (∀ t eid data wo,
       workers s !! w = Some t → w_pc t = AwaitWrite eid data →
       step s (EvWriteDone w wo) = Some (s', o) →
       files s'
       = match wo with
         | WriteOk => <[filePath eid := data]> (files s)
         | WriteErr _ (Some part) => <[filePath eid := part]> (files s)
         | WriteErr _ None => files s
         end).
Proof.
  split; [| split].
  - intros r. cbn. destruct (workers s !! w) as [t |]; [| done].
    destruct (w_pc t); try done. destruct (worker_org _ _ _).
    by intros [= <- _].
  - intros r now. cbn. destruct (workers s !! w) as [t |]; [| done].
    destruct (w_pc t); try done. destruct (worker_report _ _ _ _ _).
    by intros [= <- _].
  - intros t eid data wo Hw Hpc. cbn. rewrite Hw, Hpc.
    by intros [= <- _].
Qed.

Lemma worker_files_witness :
  let s := state_after write_pending_run in
  ∃ s1 s2,
    step s (EvWriteDone 0 WriteOk) = Some (s1, None)
    ∧ files s1 = {[ "temp/savings-export-42-2000.zip" := zip ]}
    ∧ step s (EvWriteDone 0 disk_full) = Some (s2, None)
    ∧ files s2 = {[ "temp/savings-export-42-2000.zip" := [Byte.x50] ]}.
Proof.
  intros s. eexists _, _.
  split; [vm_compute; reflexivity |]. split; [| split; [vm_compute; reflexivity |]].
  - erewrite (proj2 (proj2 (worker_files s _ 0 None))
                (mkTask "42" "savings-export-42-1000"
                   (AwaitWrite "savings-export-42-2000" zip))
                "savings-export-42-2000" zip WriteOk);
      [| vm_compute; reflexivity..].
    vm_compute. reflexivity.
  - erewrite (proj2 (proj2 (worker_files s _ 0 None))
                (mkTask "42" "savings-export-42-1000"
                   (AwaitWrite "savings-export-42-2000" zip))
                "savings-export-42-2000" zip disk_full);
      [| vm_compute; reflexivity..].
    vm_compute. reflexivity.
Defined.

(** C7 as stated fails on the write: when [writeFile] is rejected after it
    created the file, the job is marked error and the file is still there. *)
Lemma failed_write_leaves_file :
  ¬ (∀ (tr : list event) (s s' : state) (rs : list response) (w : nat)
       (t : task) (eid : string) (data : bytes) (m : string)
       (part : option bytes),
       run init tr = Some (s, rs) →
       workers s !! w = Some t → w_pc t = AwaitWrite eid data →
       files s !! filePath eid = None →
       step s (EvWriteDone w (WriteErr m part)) = Some (s', None) →
       (status <$> jobStatus s' !! w_jobId t) = Some Error
       ∧ files s' !! filePath eid = None).
Proof.
  intros H.
  pose (s := state_after write_pending_run).
  specialize (H write_pending_run s
                (from_option fst init (step s (EvWriteDone 0 disk_full)))
                (from_option snd [] (run init write_pending_run)) 0%nat
                (mkTask "42" "savings-export-42-1000"
                   (AwaitWrite "savings-export-42-2000" zip))
                "savings-export-42-2000" zip
                "ENOSPC: no space left on device, write" (Some [Byte.x50])).
  destruct H as [_ Hfile]; [vm_compute; reflexivity.. |].
  vm_compute in Hfile. discriminate Hfile.
Qed.

(** ** The name of the organization *)

Lemma set_worker_lookup s w tbl fs t pc :
  workers s !! w = Some t →
  workers (set_worker s w tbl fs t pc) !! w
  = Some (mkTask (w_orgId t) (w_jobId t) pc).
Proof.
  intros Hw. cbn. apply list_lookup_insert_eq. by eapply lookup_lt_Some.
Qed.

(** C2, as amended.  When the name lookup answers without a name (no
    organization in the reply, or a missing or empty name), the worker goes
    on with the name "organization": if the report arrives and is written,
    the job is completed and the download is offered as
    "organization-savings-analysis.zip".  When the lookup call itself fails,
    the worker stops there: the job is marked error with the message of the
    failure, and no report is requested or written. *)
Theorem name_fallback
    (s : state) (w : nat) (org k : string) (j : Job) :
  workers s !! w = Some (mkTask org k AwaitOrg) →
  jobStatus s !! k = Some j →
  (∀ d data now, no_name d →
     ∃ s',
       run s [EvOrgReply w (AxOk d); EvReportReply w (AxOk data) now;
              EvWriteDone w WriteOk] = Some (s', [])
       ∧ jobStatus s' !! k
         = Some (set_completed (savings_export_id org now)
                   (set_orgName "organization" j))
       ∧ (download_route s' k).2
         = SendFile (filePath (savings_export_id org now))
             "organization-savings-analysis.zip")
  ∧ (∀ m,
       ∃ s',
         step s (EvOrgReply w (AxErr m)) = Some (s', None)
         ∧ jobStatus s' !! k = Some (set_error (str_or m "Export failed") j)
         ∧ workers s' !! w = Some (mkTask org k Finished)
         ∧ files s' = files s).
Proof.
  intros Hw Hj. split.
  - intros d data now Hd.
    assert (worker_org (jobStatus s) k (AxOk d)
            = (<[k := set_orgName "organization" j]> (jobStatus s), AwaitReport))
      as Horg.
    { unfold worker_org, assign_orgName. rewrite (js_get_own _ _ _ Hj).
      by destruct Hd as [-> | [-> | ->]]. }
    set (s1 := set_worker s w (<[k := set_orgName "organization" j]> (jobStatus s))
                 (files s) (mkTask org k AwaitOrg) AwaitReport).
    assert (step s (EvOrgReply w (AxOk d)) = Some (s1, None)) as Hstep1.
    { cbn [step]. rewrite Hw. cbn [w_pc w_jobId]. by rewrite Horg. }
    assert (workers s1 !! w = Some (mkTask org k AwaitReport)) as Hw1
      by apply (set_worker_lookup s w _ _ _ _ Hw).
    set (eid := savings_export_id org now).
    set (s2 := set_worker s1 w (jobStatus s1) (files s1)
                 (mkTask org k AwaitReport) (AwaitWrite eid data)).
    assert (step s1 (EvReportReply w (AxOk data) now) = Some (s2, None)) as Hstep2.
    { cbn [step]. by rewrite Hw1. }
    assert (workers s2 !! w = Some (mkTask org k (AwaitWrite eid data))) as Hw2
      by apply (set_worker_lookup s1 w _ _ _ _ Hw1).
    assert (jobStatus s2 !! k = Some (set_orgName "organization" j)) as Hj2.
    { cbn. by rewrite lookup_insert_eq. }
    set (s3 := set_worker s2 w
                 (<[k := set_completed eid (set_orgName "organization" j)]>
                    (jobStatus s2))
                 (<[filePath eid := data]> (files s2))
                 (mkTask org k (AwaitWrite eid data)) Finished).
    assert (step s2 (EvWriteDone w WriteOk) = Some (s3, None)) as Hstep3.
    { cbn [step]. rewrite Hw2. cbn [w_pc w_jobId].
      unfold worker_write, assign_completed. by rewrite (js_get_own _ _ _ Hj2). }
    exists s3. split; [| split].
    + cbn [run]. by rewrite Hstep1, Hstep2, Hstep3.
    + cbn. by rewrite lookup_insert_eq.
    + rewrite (download_route_sends s3 k
                 (set_completed eid (set_orgName "organization" j)) eid data);
        [done | | done | |].
      * cbn. by rewrite lookup_insert_eq.
      * apply savings_export_id_nonempty.
      * cbn. by rewrite lookup_insert_eq.
  - intros m. eexists. split; [| split; [| split]].
    + cbn [step]. rewrite Hw. cbn [w_pc]. unfold worker_org. cbn. reflexivity.
    + cbn. unfold catch_block. rewrite (js_get_own _ _ _ Hj).
      by rewrite lookup_insert_eq.
    + cbn. apply list_lookup_insert_eq. by eapply lookup_lt_Some.
    + done.
Qed.

Lemma name_fallback_witness :
  let s := state_after [EvStart "42" 1000 1000] in
  ∃ s',
    run s [EvOrgReply 0 (AxOk DataNoOrg); EvReportReply 0 (AxOk zip) 2000;
           EvWriteDone 0 WriteOk] = Some (s', [])
    ∧ (status <$> jobStatus s' !! "savings-export-42-1000") = Some Completed
    ∧ (download_route s' "savings-export-42-1000").2
      = SendFile "temp/savings-export-42-2000.zip"
          "organization-savings-analysis.zip".
Proof.
  intros s.
  destruct (name_fallback s 0 "42" "savings-export-42-1000"
              (mkJob Processing "42" None None 1000 None)) as [Hok _].
  - vm_compute. reflexivity.
  - vm_compute. reflexivity.
  - destruct (Hok DataNoOrg zip 2000) as (s' & Hrun & Hj & Hd).
    + left. reflexivity.
    + exists s'. split; [exact Hrun |]. split; [by rewrite Hj | exact Hd].
Defined.

(** C2 as stated fails: when the name lookup fails, the worker is finished
    and requests no report, the job is marked error, and it stays so. *)
Lemma lookup_failure_ends_job :
  let s := state_after lookup_fails_run in
  let k := "savings-export-42-1000" in
  (∃ rs, run init lookup_fails_run = Some (s, rs))
  ∧ jobStatus s !! k
    = Some (mkJob Error "42" None (Some "Network Error") 1000 None)
  ∧ workers s = [mkTask "42" k Finished]
  ∧ (∀ r now, step s (EvReportReply 0 r now) = None)
  ∧ (∀ tr s' rs j,
       once k (started_ids (lookup_fails_run ++ tr)) →
       run s tr = Some (s', rs) → jobStatus s' !! k = Some j →
       status j = Error).
Proof.
  intros s k.
  assert (run init lookup_fails_run
          = Some (s, from_option snd [] (run init lookup_fails_run))) as Hrun
    by (vm_compute; reflexivity).
  split; [by eexists |].
  split; [vm_compute; reflexivity |].
  split; [vm_compute; reflexivity |].
  split; [intros r now; reflexivity |].
  intros tr s' rs j Hnd Hrun' Hj.
  assert (state_wf s) as Hwf by (eapply state_wf_run, Hrun; apply state_wf_init).
  assert (settled k Error s') as Hset.
  { eapply (settled_run tr (started_ids lookup_fails_run) k Error s);
      [done | by left | by rewrite <- started_ids_app | | done].
    split.
    - intros w t Hw _. destruct w as [| w]; [by injection Hw as <- | done].
    - intros j0 Hj0. vm_compute in Hj0. by injection Hj0 as <-. }
  by apply (st_status _ _ _ Hset).
Qed.

(** ** Downloading once *)



(** C5, as amended.  On a successful download of a completed job the zip is
    destroyed and the job record is not: after the transfer and the unlink
    the file is gone, the table is what it was, and a status query still
    answers with the completed job as long as the sweep does not take it. *)
Theorem download_destroys_file_only
    (s : state) (k : string) (j : Job) (eid : string) (content : bytes) :
  reachable s →
  jobStatus s !! k = Some j → status j = Completed →
  exportId j = Some eid →
  files s !! filePath eid = Some content →
  ∃ s1 s3 name,
    download_route s k = (s1, SendFile (filePath eid) name)
    ∧ run s1 [EvSent (length (transfers s)) true;
              EvUnlinked (length (transfers s))] = Some (s3, [])
    ∧ files s3 = delete (filePath eid) (files s)
    ∧ jobStatus s3 = jobStatus s
    ∧ (∀ now, expired now j = false →
         (job_status_route s3 k now).2 = StatusJson (VJob j)).
Proof.
  intros Hr Hj Hst He Hf.
  destruct (completed_has_export _ _ _ Hr Hj Hst) as (eid' & He' & Hne).
  assert (eid' = eid) as -> by congruence.
  destruct (download_then_unlink _ _ _ _ _ Hj He Hne Hf)
    as (s1 & s3 & Hd & _ & Hrun & Htbl & Hfs).
  eexists s1, s3, _. split; [exact Hd |]. split; [exact Hrun |].
  split; [exact Hfs |]. split; [exact Htbl |].
  intros now Hex. unfold job_status_route, js_get.
  by rewrite sweep_lookup, Htbl, Hj, Hex.
Qed.

Lemma download_destroys_file_only_witness :
  let k := "savings-export-42-1000" in
  let s := state_after acme_run in
  ∃ s1 s3 name j,
    download_route s k = (s1, SendFile "temp/savings-export-42-2000.zip" name)
    ∧ run s1 [EvSent 0 true; EvUnlinked 0] = Some (s3, [])
    ∧ files s3 = ∅
    ∧ jobStatus s3 !! k = Some j
    ∧ (job_status_route s3 k 9000).2 = StatusJson (VJob j).
Proof.
  intros k s.
  destruct (download_destroys_file_only s k
              (mkJob Completed "42" (Some "savings-export-42-2000") None 1000
                 (Some "Acme"))
              "savings-export-42-2000" zip)
    as (s1 & s3 & name & Hd & Hrun & Hfs & Htbl & Hq).
  - eexists acme_run, _. vm_compute. reflexivity.
  - vm_compute. reflexivity.
  - reflexivity.
  - reflexivity.
  - vm_compute. reflexivity.
  - eexists s1, s3, name, _. split; [exact Hd |]. split; [exact Hrun |].
    split; [rewrite Hfs; vm_compute; reflexivity |].
    split; [rewrite Htbl; vm_compute; reflexivity |].
    apply Hq. vm_compute. reflexivity.
Defined.

(** C5 as stated fails on the job record: after a successful download the
    job id is still in the table. *)
Lemma download_keeps_job_record :
  ¬ (∀ (s s1 s3 : state) (k : string) (j : Job) (path name : string),
       reachable s →
       jobStatus s !! k = Some j → status j = Completed →
       download_route s k = (s1, SendFile path name) →
       run s1 [EvSent (length (transfers s)) true;
               EvUnlinked (length (transfers s))] = Some (s3, []) →
       jobStatus s3 !! k = None).
Proof.
  intros H.
  pose (s := state_after acme_run).
  pose (s1 := (download_route s "savings-export-42-1000").1).
  specialize (H s s1
                (from_option fst init (run s1 [EvSent 0 true; EvUnlinked 0]))
                "savings-export-42-1000"
                (mkJob Completed "42" (Some "savings-export-42-2000") None 1000
                   (Some "Acme"))
                "temp/savings-export-42-2000.zip" "Acme-savings-analysis.zip").
  assert (reachable s) as Hr.
  { eexists acme_run, _. vm_compute. reflexivity. }
  specialize (H Hr). vm_compute in H.
  specialize (H eq_refl eq_refl eq_refl eq_refl). discriminate H.
Qed.

(** ** Expiry *)

Lemma step_keeps_jobs s e s' o k :
  step s e = Some (s', o) →
  (∀ k0 now, e ≠ EvStatus k0 now) →
  is_Some (jobStatus s !! k) → is_Some (jobStatus s' !! k).
Proof.
  intros Hstep Hne [j Hj].
  assert (∀ k0 tbl pc, worker_upd k0 (jobStatus s) tbl pc → is_Some (tbl !! k))
    as Hupd.
  { intros k0 tbl pc [pc0 | j0 n Hj0 | j0 x Hj0 _ | j0 m Hj0 _]; [by eauto | ..];
      apply lookup_insert_is_Some'; by eauto. }
  destruct e as [org t1 t2 | k0 now | k0 | w r | w r now | w wo | d ok | d];
    cbn [step] in Hstep.
  - injection Hstep as <- _. cbn. apply lookup_insert_is_Some'. by eauto.
  - by destruct (Hne k0 now).
  - unfold download_route in Hstep.
    destruct (_ || _); [injection Hstep as <- _; by eauto |].
    destruct (negb _); injection Hstep as <- _; by eauto.
  - destruct (workers s !! w) as [t |]; [| done].
    destruct (w_pc t); try done.
    destruct (worker_org _ _ _) as [tbl pc] eqn:Hwo.
    injection Hstep as <- _. cbn. by eapply Hupd, worker_org_upd.
  - destruct (workers s !! w) as [t |]; [| done].
    destruct (w_pc t); try done.
    destruct (worker_report _ _ _ _ _) as [tbl pc] eqn:Hwo.
    injection Hstep as <- _. cbn. by eapply Hupd, worker_report_upd.
  - destruct (workers s !! w) as [t |]; [| done].
    destruct (w_pc t) as [| | eid data |]; try done.
    injection Hstep as <- _. cbn.
    unfold worker_write, assign_completed, catch_block, js_get.
    destruct wo as [| m part]; cbn;
      destruct (jobStatus s !! w_jobId t); cbn;
      try case_bool_decide; cbn;
      try (apply lookup_insert_is_Some'); by eauto.
  - destruct (transfers s !! d) as [tr |]; [| done].
    destruct (d_pc tr); try done. injection Hstep as <- _. by eauto.
  - destruct (transfers s !! d) as [tr |]; [| done].
    destruct (d_pc tr); try done. injection Hstep as <- _. by eauto.
Qed.

(** C10.  The download route reads no clock and sweeps nothing: for every
    completed job whose zip is on disk it sends the zip and leaves the table
    as it is, however old the job; and no step other than a status query
    removes a job from the table. *)
Theorem download_ignores_expiry
    (s : state) (k : string) (j : Job) (eid : string) (content : bytes) :
  reachable s →
  jobStatus s !! k = Some j → status j = Completed →
  exportId j = Some eid →
  files s !! filePath eid = Some content →
  (∃ s1 name,
     download_route s k = (s1, SendFile (filePath eid) name)
     ∧ jobStatus s1 = jobStatus s)
  ∧ (∀ e s' o k',
       step s e = Some (s', o) →
       (∀ k0 now, e ≠ EvStatus k0 now) →
       is_Some (jobStatus s !! k') → is_Some (jobStatus s' !! k')).
Proof.
  intros Hr Hj Hst He Hf. split.
  - destruct (completed_has_export _ _ _ Hr Hj Hst) as (eid' & He' & Hne).
    assert (eid' = eid) as -> by congruence.
    eexists _, _. split; [by eapply download_route_sends | done].
  - intros e s' o k'. apply step_keeps_jobs.
Qed.

Lemma download_ignores_expiry_witness :
  let k := "savings-export-42-1000" in
  let s := state_after acme_run in
  ∃ j s1 name,
    jobStatus s !! k = Some j
    ∧ expired 86400000 j = true
    ∧ download_route s k = (s1, SendFile "temp/savings-export-42-2000.zip" name)
    ∧ jobStatus s1 = jobStatus s.
Proof.
  intros k s.
  destruct (download_ignores_expiry s k
              (mkJob Completed "42" (Some "savings-export-42-2000") None 1000
                 (Some "Acme"))
              "savings-export-42-2000" zip)
    as [(s1 & name & Hd & Htbl) _].
  - eexists acme_run, _. vm_compute. reflexivity.
  - vm_compute. reflexivity.
  - reflexivity.
  - reflexivity.
  - vm_compute. reflexivity.
  - eexists _, s1, name. split; [vm_compute; reflexivity |].
    split; [vm_compute; reflexivity |]. split; [exact Hd | exact Htbl].
Defined.




(** ** What the status route answers *)

(** For an id that is no member of [Object.prototype] the status route
    answers Not-Found or with the job record, whose status is one of the
    three, with the export id when completed and the message when failed. *)
Lemma status_answers_job_or_not_found (s : state) (k : string) (now : Z) :
  reachable s → k ∉ object_prototype_names →
  (job_status_route s k now).2 = NotFound "Job not found"
  ∨ ∃ j, (job_status_route s k now).2 = StatusJson (VJob j)
         ∧ (status j = Completed → truthy (exportId j) = true)
         ∧ (status j = Error → truthy (error j) = true).
Proof.
  intros [_ Htb]%reachable_wf Hk. unfold job_status_route, js_get.
  rewrite sweep_lookup.
  destruct (jobStatus s !! k) as [j |] eqn:Hj.
  - destruct (expired now j).
    + left. by rewrite bool_decide_eq_false_2.
    + right. exists j. split; [done |]. by apply (Htb _ _ Hj).
  - left. by rewrite bool_decide_eq_false_2.
Qed.

(** C9, where the code departs from it.  For an id that names a member of
    [Object.prototype] (constructor, toString, __proto__, ...) the test
    [!jobStatus[jobId]] finds the inherited member, which is truthy: the
    status route answers 200 with that member instead of Not-Found. *)
Theorem status_of_inherited_name (s : state) (name : string) (now : Z) :
  reachable s → name ∈ object_prototype_names →
  (job_status_route s name now).2 = StatusJson (VInherited name).
Proof.
  intros [_ Htb]%reachable_wf Hin. unfold job_status_route, js_get.
  rewrite sweep_lookup.
  destruct (jobStatus s !! name) as [j |] eqn:Hj.
  - by destruct (Htb _ _ Hj) as [Hk _].
  - by rewrite bool_decide_eq_true_2.
Qed.

Lemma status_of_inherited_name_witness :
  (job_status_route init "constructor" 1000).2
  = StatusJson (VInherited "constructor").
Proof.
  apply status_of_inherited_name.
  - exists [], []. reflexivity.
  - apply (bool_decide_unpack _). vm_compute. reflexivity.
Defined.

(** * Further properties of the job routes and the worker *)

(** ** Downloads that are refused *)

(** X1.  For a job id that the start route built at most once, a download
    while the job is still processing, or after it failed, is answered 404
    "Export not found or not completed" and changes nothing. *)
Theorem download_unfinished_not_found
    (tr : list event) (s : state) (rs : list response) (k : string) (j : Job) :
  run init tr = Some (s, rs) →
  once k (started_ids tr) →
  jobStatus s !! k = Some j →
  status j ≠ Completed →
  download_route s k = (s, NotFound "Export not found or not completed").
Proof.
  intros Hrun Honce Hj Hst.
  assert (id_inv k ([] ++ started_ids tr) s) as Hinv.
  { eapply id_inv_run; [apply state_wf_init | apply id_inv_init | done | done]. }
  destruct (ii_exact _ _ _ Hinv _ Hj) as [Hx _].
  assert (truthy (exportId j) = false) as Hfalse.
  { apply not_true_is_false. intros Ht. by apply Hst, Hx. }
  unfold download_route. rewrite (js_get_own _ _ _ Hj).
  cbn [mbind option_bind value_exportId]. rewrite Hfalse.
  by rewrite orb_true_r.
Qed.

Lemma download_unfinished_not_found_witness :
  let s := state_after lookup_fails_run in
  download_route s "savings-export-42-1000"
  = (s, NotFound "Export not found or not completed").
Proof.
  intros s.
  eapply (download_unfinished_not_found lookup_fails_run s _ _
            (mkJob Error "42" None (Some "Network Error") 1000 None)).
  - vm_compute. reflexivity.
  - apply NoDup_once, (bool_decide_unpack _). vm_compute. reflexivity.
  - vm_compute. reflexivity.
  - discriminate.
Defined.

Lemma download_route_no_record (s : state) (k : string) :
  jobStatus s !! k = None →
  download_route s k = (s, NotFound "Export not found or not completed").
Proof.
  intros Hk. unfold download_route, js_get. rewrite Hk.
  by destruct (bool_decide (k ∈ object_prototype_names)).
Qed.

(** X2.  In every reachable state a download for an id that was never
    started or has been swept, and likewise for the name of a member of
    [Object.prototype] (for which the status route answers 200), is
    answered 404 and changes nothing. *)
Theorem download_unknown_or_inherited_not_found (s : state) (k : string) :
  reachable s →
  jobStatus s !! k = None ∨ k ∈ object_prototype_names →
  download_route s k = (s, NotFound "Export not found or not completed").
Proof.
  intros [_ Htb]%reachable_wf [Hk | Hin]; apply download_route_no_record;
    [done |].
  destruct (jobStatus s !! k) as [j |] eqn:Hj; [| done].
  by destruct (Htb _ _ Hj) as [Hk _].
Qed.

Lemma download_unknown_or_inherited_not_found_witness :
  let s := state_after acme_run in
  download_route s "constructor"
  = (s, NotFound "Export not found or not completed")
  ∧ download_route s "savings-export-42-999"
    = (s, NotFound "Export not found or not completed").
Proof.
  intros s.
  assert (reachable s) as Hr by (eexists acme_run, _; vm_compute; reflexivity).
  split; apply download_unknown_or_inherited_not_found; try done.
  - right. apply (bool_decide_unpack _). vm_compute. reflexivity.
  - left. vm_compute. reflexivity.
Defined.

(** X5.  When the transfer of a download fails, the zip is not unlinked:
    the files are as before, no unlink is pending for that transfer, and
    the next download of the job is served again. *)
Theorem failed_transfer_keeps_zip
    (s : state) (k : string) (j : Job) (eid : string) (content : bytes) :
  jobStatus s !! k = Some j → exportId j = Some eid → eid ≠ "" →
  files s !! filePath eid = Some content →
  ∃ s1 s2 name,
    download_route s k = (s1, SendFile (filePath eid) name)
    ∧ step s1 (EvSent (length (transfers s)) false) = Some (s2, None)
    ∧ files s2 = files s
    ∧ step s2 (EvUnlinked (length (transfers s))) = None
    ∧ (download_route s2 k).2 = SendFile (filePath eid) name.
Proof.
  intros Hj He Hne Hf.
  set (p := filePath eid). set (d := length (transfers s)).
  set (s1 := mkState (jobStatus s) (files s) (workers s)
               (transfers s ++ [mkTransfer p Sending])).
  assert (transfers s1 !! d = Some (mkTransfer p Sending)) as Hd1
    by (by apply list_lookup_middle).
  set (s2 := mkState (jobStatus s) (files s) (workers s)
               (<[d := mkTransfer p Closed]> (transfers s1))).
  assert (transfers s2 !! d = Some (mkTransfer p Closed)) as Hd2.
  { apply list_lookup_insert_eq. by eapply lookup_lt_Some. }
  eexists s1, s2, _. split; [by eapply download_route_sends |].
  split; [cbn [step]; by rewrite Hd1 |]. split; [done |].
  split; [cbn [step]; by rewrite Hd2 |].
  by rewrite (download_route_sends s2 k j eid content).
Qed.

Lemma failed_transfer_keeps_zip_witness :
  let s := state_after acme_run in
  ∃ s1 s2,
    step s1 (EvSent 0 false) = Some (s2, None)
    ∧ (download_route s "savings-export-42-1000").1 = s1
    ∧ (download_route s2 "savings-export-42-1000").2
      = SendFile "temp/savings-export-42-2000.zip" "Acme-savings-analysis.zip".
Proof.
  intros s.
  destruct (failed_transfer_keeps_zip s "savings-export-42-1000"
              (mkJob Completed "42" (Some "savings-export-42-2000") None 1000
                 (Some "Acme"))
              "savings-export-42-2000" zip)
    as (s1 & s2 & name & Hd & Hstep & _ & _ & Hd2).
  - vm_compute. reflexivity.
  - reflexivity.
  - discriminate.
  - vm_compute. reflexivity.
  - exists s1, s2. split; [exact Hstep |]. split; [by rewrite Hd |].
    rewrite Hd2. f_equal.
    assert ((download_route s "savings-export-42-1000").2
            = SendFile "temp/savings-export-42-2000.zip"
                "Acme-savings-analysis.zip") as Hc by (vm_compute; reflexivity).
    rewrite Hd in Hc. by injection Hc.
Defined.

(** ** Polling more than once *)

Lemma expired_mono (now1 now2 : Z) (j : Job) :
  (now1 ≤ now2)%Z → expired now1 j = true → expired now2 j = true.
Proof.
  unfold expired. intros Hle [Hc Hold%bool_decide_eq_true]%andb_true_iff.
  rewrite Hc. cbn. apply bool_decide_eq_true. lia.
Qed.

Lemma sweep_sweep (now1 now2 : Z) (tbl : gmap string Job) :
  (now1 ≤ now2)%Z → sweep now2 (sweep now1 tbl) = sweep now2 tbl.
Proof.
  intros Hle. apply map_eq. intros k. rewrite !sweep_lookup.
  destruct (tbl !! k) as [j |]; [| done].
  destruct (expired now1 j) eqn:H1; [| done].
  by rewrite (expired_mono _ _ _ Hle H1).
Qed.

(** X3.  Status queries compose: a query at an earlier clock reading, for
    whatever id, changes neither the answer nor the table of a later query.
    Polling more often removes no job sooner. *)
Theorem earlier_status_query_is_absorbed
    (s : state) (k1 k2 : string) (now1 now2 : Z) :
  (now1 ≤ now2)%Z →
  let s1 := (job_status_route s k1 now1).1 in
  (job_status_route s1 k2 now2).2 = (job_status_route s k2 now2).2
  ∧ jobStatus (job_status_route s1 k2 now2).1
    = jobStatus (job_status_route s k2 now2).1.
Proof.
  intros Hle s1.
  assert (sweep now2 (jobStatus s1) = sweep now2 (jobStatus s)) as Heq.
  { unfold s1. destruct (job_status_route_table s k1 now1) as (-> & _).
    by apply sweep_sweep. }
  split.
  - unfold job_status_route. rewrite Heq. by destruct (js_get _ _).
  - by rewrite !(proj1 (job_status_route_table _ _ _)).
Qed.

Lemma earlier_status_query_is_absorbed_witness :
  let s := state_after acme_run in
  let s1 := (job_status_route s "savings-export-7-5" 3000).1 in
  (job_status_route s1 "savings-export-42-1000" 3700000).2
  = (job_status_route s "savings-export-42-1000" 3700000).2.
Proof.
  intros s s1.
  apply (earlier_status_query_is_absorbed s "savings-export-7-5"
           "savings-export-42-1000" 3000 3700000).
  lia.
Defined.

(** ** Where job ids come from *)

Lemma step_new_job s e s' o k :
  step s e = Some (s', o) →
  is_Some (jobStatus s' !! k) →
  is_Some (jobStatus s !! k) ∨ k ∈ started_ids [e].
Proof.
  intros Hstep Hk.
  assert (∀ k0 (j0 : Job), is_Some (jobStatus s !! k0) →
            is_Some (<[k0 := j0]> (jobStatus s) !! k) →
            is_Some (jobStatus s !! k)) as Hins.
  { intros k0 j0 H0. rewrite lookup_insert_is_Some.
    intros [<- | [_ ?]]; done. }
  assert (∀ k0 m, is_Some (catch_block (jobStatus s) k0 m !! k) →
            is_Some (jobStatus s !! k)) as Hcatch.
  { intros k0 m. unfold catch_block, js_get.
    destruct (jobStatus s !! k0) as [j0 |] eqn:H0.
    - apply Hins. by eauto.
    - by case_bool_decide. }
  destruct e as [org t1 t2 | k0 now | k0 | w r | w r now | w wo | d ok | d];
    cbn [step] in Hstep.
  - injection Hstep as <- _. cbn in Hk. apply lookup_insert_is_Some in Hk.
    destruct Hk as [<- | [_ Hk]]; [right; cbn; by left | by left].
  - left. pose proof (job_status_route_table s k0 now) as (Htbl & _).
    destruct (job_status_route s k0 now) as [s1 r]. injection Hstep as <- _.
    cbn in Htbl. rewrite Htbl, sweep_lookup in Hk.
    destruct (jobStatus s !! k) as [j |]; [by eauto | by destruct Hk].
  - left. unfold download_route in Hstep.
    destruct (_ || _); [by injection Hstep as <- _ |].
    destruct (negb _); by injection Hstep as <- _.
  - left. destruct (workers s !! w) as [t |]; [| done].
    destruct (w_pc t); try done.
    destruct (worker_org _ _ _) as [tbl pc] eqn:Hwo.
    injection Hstep as <- _. cbn in Hk.
    eapply worker_upd_is_Some; [by eapply worker_org_upd | done].
  - left. destruct (workers s !! w) as [t |]; [| done].
    destruct (w_pc t); try done.
    destruct (worker_report _ _ _ _ _) as [tbl pc] eqn:Hwo.
    injection Hstep as <- _. cbn in Hk.
    eapply worker_upd_is_Some; [by eapply worker_report_upd | done].
  - left. destruct (workers s !! w) as [t |]; [| done].
    destruct (w_pc t) as [| | eid data |]; try done.
    injection Hstep as <- _. cbn in Hk. revert Hk.
    unfold worker_write, assign_completed, js_get.
    destruct wo as [| m part]; cbn; [| by apply Hcatch].
    destruct (jobStatus s !! w_jobId t) as [j0 |] eqn:H0; cbn.
    + apply Hins. by eauto.
    + case_bool_decide; cbn; [done | by apply Hcatch].
  - left. destruct (transfers s !! d) as [tr |]; [| done].
    destruct (d_pc tr); try done. by injection Hstep as <- _.
  - left. destruct (transfers s !! d) as [tr |]; [| done].
    destruct (d_pc tr); try done. by injection Hstep as <- _.
Qed.

Lemma run_new_job tr s s' rs k :
  run s tr = Some (s', rs) →
  is_Some (jobStatus s' !! k) →
  is_Some (jobStatus s !! k) ∨ k ∈ started_ids tr.
Proof.
  revert s rs. induction tr as [| e tr IH]; intros s rs.
  - intros [= <- <-] Hk. by left.
  - intros (s1 & o & rs' & Hstep & Hrun & ->)%run_cons Hk.
    rewrite started_ids_cons.
    destruct (IH _ _ Hrun Hk) as [Hk1 | Hin];
      [| right; apply elem_of_app; by right].
    destruct (step_new_job _ _ _ _ _ Hstep Hk1) as [? | Hin]; [by left |].
    right. apply elem_of_app. by left.
Qed.

(** X4.  Only the start route puts an id into the table: every job id
    stored after a run was stored before it or was built by a start request
    of the run.  In particular no worker brings back a record that a status
    query has swept. *)
Theorem stored_ids_come_from_start
    (tr : list event) (s s' : state) (rs : list response) (k : string) :
  run s tr = Some (s', rs) →
  is_Some (jobStatus s' !! k) →
  is_Some (jobStatus s !! k) ∨ k ∈ started_ids tr.
Proof. apply run_new_job. Qed.

Lemma stored_ids_come_from_start_witness :
  "savings-export-42-1000" ∈ started_ids acme_run.
Proof.
  destruct (stored_ids_come_from_start acme_run init (state_after acme_run)
              (from_option snd [] (run init acme_run))
              "savings-export-42-1000") as [[j Hj] | Hin].
  - vm_compute. reflexivity.
  - eexists. vm_compute. reflexivity.
  - done.
  - exact Hin.
Defined.

(** ** Jobs in processing *)

Lemma catch_block_status tbl k m j' :
  catch_block tbl k m !! k = Some j' → status j' = Error.
Proof.
  unfold catch_block, js_get. destruct (tbl !! k) as [j |] eqn:Hk.
  - rewrite lookup_insert_eq. by intros [= <-].
  - case_bool_decide; congruence.
Qed.

Lemma worker_org_finished tbl k r tbl' j' :
  worker_org tbl k r = (tbl', Finished) → tbl' !! k = Some j' →
  status j' = Error.
Proof.
  unfold worker_org. destruct (bind _ _); [done |].
  intros [= <-]. apply catch_block_status.
Qed.

Lemma worker_report_finished tbl org k r now tbl' j' :
  worker_report tbl org k r now = (tbl', Finished) → tbl' !! k = Some j' →
  status j' = Error.
Proof.
  unfold worker_report. destruct (await r); [done |].
  intros [= <-]. apply catch_block_status.
Qed.

Lemma worker_write_finished tbl k eid o j' :
  worker_write tbl k eid o !! k = Some j' → status j' ≠ Processing.
Proof.
  unfold worker_write. destruct o as [| m part]; cbn.
  - unfold assign_completed, js_get. destruct (tbl !! k) as [j |] eqn:Hk; cbn.
    + rewrite lookup_insert_eq. by intros [= <-].
    + case_bool_decide; cbn; [congruence |].
      by intros ->%catch_block_status.
  - by intros ->%catch_block_status.
Qed.

(** A worker that finishes leaves its job, if still stored, terminal. *)
Lemma step_finished_worker s e s' o w t t' j' :
  step s e = Some (s', o) →
  workers s !! w = Some t → w_pc t ≠ Finished →
  workers s' !! w = Some t' → w_pc t' = Finished →
  jobStatus s' !! w_jobId t = Some j' → status j' ≠ Processing.
Proof.
  intros Hstep Hw Hpc Hw' Hpc' Hj'.
  assert (workers s' = workers s → False) as Hsame.
  { intros Heq. rewrite Heq in Hw'. congruence. }
  destruct e as [org t1 t2 | k0 now | k0 | w0 r | w0 r now | w0 wo | d ok | d];
    cbn [step] in Hstep.
  - injection Hstep as <- _. cbn in Hw'.
    rewrite lookup_app_l in Hw' by (by eapply lookup_lt_Some). congruence.
  - pose proof (job_status_route_table s k0 now) as (_ & Hws & _).
    destruct (job_status_route s k0 now). injection Hstep as <- _. by destruct Hsame.
  - unfold download_route in Hstep. destruct (_ || _);
      [injection Hstep as <- _; by destruct Hsame |].
    destruct (negb _); injection Hstep as <- _; by destruct Hsame.
  - destruct (workers s !! w0) as [t0 |] eqn:Hw0; [| done].
    destruct (w_pc t0); try done.
    destruct (worker_org _ _ _) as [tbl pc] eqn:Hwo.
    injection Hstep as <- _. cbn in Hw', Hj'.
    destruct (decide (w0 = w)) as [-> | Hne];
      [| rewrite list_lookup_insert_ne in Hw' by done; congruence].
    rewrite list_lookup_insert_eq in Hw' by (by eapply lookup_lt_Some).
    injection Hw' as <-. cbn in Hpc'. subst pc.
    assert (t0 = t) as -> by congruence.
    by rewrite (worker_org_finished _ _ _ _ _ Hwo Hj').
  - destruct (workers s !! w0) as [t0 |] eqn:Hw0; [| done].
    destruct (w_pc t0); try done.
    destruct (worker_report _ _ _ _ _) as [tbl pc] eqn:Hwo.
    injection Hstep as <- _. cbn in Hw', Hj'.
    destruct (decide (w0 = w)) as [-> | Hne];
      [| rewrite list_lookup_insert_ne in Hw' by done; congruence].
    rewrite list_lookup_insert_eq in Hw' by (by eapply lookup_lt_Some).
    injection Hw' as <-. cbn in Hpc'. subst pc.
    assert (t0 = t) as -> by congruence.
    by rewrite (worker_report_finished _ _ _ _ _ _ _ Hwo Hj').
  - destruct (workers s !! w0) as [t0 |] eqn:Hw0; [| done].
    destruct (w_pc t0) as [| | eid data |]; try done.
    injection Hstep as <- _. cbn in Hw', Hj'.
    destruct (decide (w0 = w)) as [-> | Hne];
      [| rewrite list_lookup_insert_ne in Hw' by done; congruence].
    assert (t0 = t) as -> by congruence.
    by eapply worker_write_finished.
  - destruct (transfers s !! d) as [tr |]; [| done].
    destruct (d_pc tr); try done. injection Hstep as <- _. by destruct Hsame.
  - destruct (transfers s !! d) as [tr |]; [| done].
    destruct (d_pc tr); try done. injection Hstep as <- _. by destruct Hsame.
Qed.

Lemma processing_running_step s e s' o k :
  state_wf s →
  (∀ j, jobStatus s !! k = Some j → status j = Processing → running s k) →
  step s e = Some (s', o) →
  ∀ j', jobStatus s' !! k = Some j' → status j' = Processing → running s' k.
Proof.
  intros [Hts _] Hinv Hstep j' Hj' Hst'.
  pose proof (step_cases _ _ _ _ Hts Hstep) as Hk.
  destruct Hk as [org t1 t2 Htbl Hws | k0 now Htbl Hws
                 | e w t pc' He Hw Hpc Hws Hu _ | e He Htbl Hws].
  - destruct (decide (savings_export_id org t1 = k)) as [<- | Hne].
    + exists (length (workers s)), (mkTask org (savings_export_id org t1) AwaitOrg).
      rewrite Hws. split; [by apply list_lookup_middle | done].
    + rewrite Htbl, lookup_insert_ne in Hj' by done.
      destruct (Hinv _ Hj' Hst') as (w & t & Hw & Hid & Hpc).
      exists w, t. rewrite Hws.
      split; [| done]. rewrite lookup_app_l; [done | by eapply lookup_lt_Some].
  - rewrite Htbl, sweep_lookup in Hj'.
    destruct (jobStatus s !! k) as [j |] eqn:Hj; [| done].
    destruct (expired now j); [done |]. injection Hj' as ->.
    destruct (Hinv _ eq_refl Hst') as (w & t & Hw & Hid & Hpc).
    exists w, t. by rewrite Hws.
  - destruct (decide (w_jobId t = k)) as [Hid | Hne].
    + exists w, (mkTask (w_orgId t) (w_jobId t) pc'). rewrite Hws.
      assert (w < length (workers s))%nat as Hlt by (by eapply lookup_lt_Some).
      split; [by apply list_lookup_insert_eq |]. split; [done |].
      cbn. intros ->.
      apply (step_finished_worker s e s' o w t
               (mkTask (w_orgId t) (w_jobId t) Finished) j' Hstep Hw Hpc);
        [| done | by rewrite Hid | done].
      rewrite Hws. by apply list_lookup_insert_eq.
    + destruct (worker_upd_lookup _ _ _ _ _ _ Hu Hj') as [Hold | [? _]];
        [| congruence].
      destruct (Hinv _ Hold Hst') as (w0 & t0 & Hw0 & Hid0 & Hpc0).
      exists w0, t0. rewrite Hws.
      split; [| done]. rewrite list_lookup_insert_ne; [done |].
      intros ->. congruence.
  - rewrite Htbl in Hj'.
    destruct (Hinv _ Hj' Hst') as (w & t & Hw & Hid & Hpc).
    exists w, t. by rewrite Hws.
Qed.

(** X6.  No job is left in processing by a worker that has ended: in every
    reachable state, a stored job whose status is processing has a worker
    that still awaits the name, the report or the write. *)
Theorem processing_job_has_running_worker
    (s : state) (k : string) (j : Job) :
  reachable s →
  jobStatus s !! k = Some j → status j = Processing →
  running s k.
Proof.
  intros (tr & rs & Hrun). revert j.
  assert (∀ s0, state_wf s0 →
            (∀ j, jobStatus s0 !! k = Some j → status j = Processing →
                  running s0 k) →
            run s0 tr = Some (s, rs) →
            ∀ j, jobStatus s !! k = Some j → status j = Processing →
                 running s k) as Hgen.
  { clear Hrun. revert rs. induction tr as [| e tr IH]; intros rs s0 Hwf Hinv.
    - by intros [= <- <-].
    - intros (s1 & o & rs' & Hstep & Hrun & ->)%run_cons.
      eapply IH; [by eapply state_wf_step | | done].
      by eapply processing_running_step. }
  apply (Hgen init); [apply state_wf_init | | done].
  intros j Hj. done.
Qed.

Lemma processing_job_has_running_worker_witness :
  running (state_after write_pending_run) "savings-export-42-1000".
Proof.
  apply (processing_job_has_running_worker _ _
           (mkJob Processing "42" None None 1000 (Some "Acme"))).
  - eexists write_pending_run, _. vm_compute. reflexivity.
  - vm_compute. reflexivity.
  - reflexivity.
Defined.

(** ** A record swept under a running worker *)

(** X7.  When the record of a job has been swept while its worker awaits
    the report, the worker still writes the zip when the report arrives,
    and then ends without bringing the record back: the table is
    unchanged, and the zip stays on disk with no job pointing at it. *)
Theorem swept_job_leaves_orphan_zip
    (s : state) (w : nat) (t : task) (data : bytes) (now : Z) :
  reachable s →
  workers s !! w = Some t → w_pc t = AwaitReport →
  jobStatus s !! w_jobId t = None →
  ∃ s',
    run s [EvReportReply w (AxOk data) now; EvWriteDone w WriteOk]
    = Some (s', [])
    ∧ jobStatus s' = jobStatus s
    ∧ files s'
      = <[filePath (savings_export_id (w_orgId t) now) := data]> (files s)
    ∧ workers s' !! w = Some (mkTask (w_orgId t) (w_jobId t) Finished).
Proof.
  intros [Hts _]%reachable_wf Hw Hpc Hk.
  destruct (Hts _ _ Hw) as [Hnot _].
  assert (js_get (jobStatus s) (w_jobId t) = None) as Hget.
  { unfold js_get. rewrite Hk. by rewrite bool_decide_eq_false_2. }
  set (eid := savings_export_id (w_orgId t) now).
  set (s1 := set_worker s w (jobStatus s) (files s) t (AwaitWrite eid data)).
  assert (step s (EvReportReply w (AxOk data) now) = Some (s1, None)) as Hstep1.
  { cbn [step]. by rewrite Hw, Hpc. }
  assert (workers s1 !! w
          = Some (mkTask (w_orgId t) (w_jobId t) (AwaitWrite eid data))) as Hw1
    by apply (set_worker_lookup s w _ _ _ _ Hw).
  set (s2 := set_worker s1 w (jobStatus s)
               (<[filePath eid := data]> (files s))
               (mkTask (w_orgId t) (w_jobId t) (AwaitWrite eid data)) Finished).
  assert (step s1 (EvWriteDone w WriteOk) = Some (s2, None)) as Hstep2.
  { cbn [step]. rewrite Hw1. cbn [w_pc w_jobId w_orgId].
    unfold worker_write, assign_completed, catch_block. cbn [jobStatus s1 set_worker].
    by rewrite Hget. }
  exists s2. split; [cbn [run]; by rewrite Hstep1, Hstep2 |].
  split; [done |]. split; [done |].
  apply (set_worker_lookup s1 w _ _ _ _ Hw1).
Qed.

Lemma swept_job_leaves_orphan_zip_witness :
  let s := state_after swept_while_waiting_run in
  ∃ s',
    run s [EvReportReply 0 (AxOk zip) 3700500; EvWriteDone 0 WriteOk]
    = Some (s', [])
    ∧ jobStatus s' = ∅
    ∧ files s' = {[ "temp/savings-export-42-3700500.zip" := zip ]}.
Proof.
  intros s.
  destruct (swept_job_leaves_orphan_zip s 0
              (mkTask "42" "savings-export-42-1000" AwaitReport) zip 3700500)
    as (s' & Hrun & Htbl & Hfs & _).
  - eexists swept_while_waiting_run, _. vm_compute. reflexivity.
  - vm_compute. reflexivity.
  - reflexivity.
  - vm_compute. reflexivity.
  - exists s'. split; [exact Hrun |].
    split; [rewrite Htbl | rewrite Hfs]; vm_compute; reflexivity.
Defined.

(** * The page against the server *)

Lemma start_then_poll_answered
    (s : state) (org : string) (t_id t_created : Z) :
  let jobId := savings_export_id org t_id in
  let s' := (start_answered s org t_id t_created).1 in
  (start_answered s org t_id t_created).2.2 = Some jobId
  ∧ n_title <$> (start_answered s org t_id t_created).2.1 = ["Export Started"]
  ∧ (status <$> jobStatus s' !! jobId) = Some Processing
  ∧ (∀ now, (now - t_created ≤ 3600000)%Z →
            (poll_answered s' jobId now).2 = keep_polling).
Proof.
  intros jobId s'.
  assert (truthy (Some jobId) = true) as Hid.
  { cbn. rewrite bool_decide_eq_false_2; [done |].
    apply savings_export_id_nonempty. }
  unfold start_answered, start_export, response_json, start_tick in *.
  cbn [fst snd c_status c_jobId] in *. fold jobId in s' |- *.
  rewrite bool_decide_eq_true_2 by done. rewrite Hid. cbn [andb fst snd].
  split; [done |]. split; [done |].
  assert (jobStatus s' !! jobId
          = Some (mkJob Processing org None None t_created None)) as Hj
    by (cbn; by rewrite lookup_insert_eq).
  split; [by rewrite Hj |].
  intros now Hnow. unfold poll_answered, job_status_route.
  assert (sweep now (jobStatus s') !! jobId
          = Some (mkJob Processing org None None t_created None)) as Hsw.
  { rewrite sweep_lookup, Hj. unfold expired. cbn [created].
    rewrite (bool_decide_eq_false_2 (now - t_created > 3600000)) by lia.
    by rewrite andb_false_r. }
  by rewrite (js_get_own _ _ _ Hsw).
Qed.




(** * Notifications *)

Lemma titles_of_filter (P : nat * notice → Prop) `{!∀ x, Decision (P x)}
    (l : list (nat * notice)) :
  NoDup ((λ hn : nat * notice, n_title hn.2) <$> l) →
  NoDup ((λ hn : nat * notice, n_title hn.2) <$> filter P l).
Proof.
  intros Hnd. eapply sublist_NoDup; [exact Hnd |].
  apply fmap_sublist, sublist_filter.
Qed.

Lemma page_wf_init : page_wf empty_page.
Proof.
  split; cbn.
  - intros h n Hin. by apply elem_of_nil in Hin.
  - intros h Hin. by apply elem_of_nil in Hin.
  - constructor.
  - intros h n Hin. by apply elem_of_nil in Hin.
Qed.

Lemma page_wf_step pg e pg' :
  page_wf pg → page_step pg e = Some pg' → page_wf pg'.
Proof.
  intros [Hsh Hti Hnd Herr]. destruct e as [n | h | h]; cbn [page_step].
  - destruct (plain (n_title n) && plain (n_message n)); [| done].
    intros [= <-]. unfold showNotification. split; cbn.
    + intros h0 n0 [[_ Hin]%list_elem_of_filter | [= -> ->]%list_elem_of_singleton]%elem_of_app;
        [apply Hsh in Hin |]; lia.
    + intros h0. case_bool_decide.
      * intros Hin%Hti. lia.
      * intros [Hin%Hti | ->%list_elem_of_singleton]%elem_of_app; lia.
    + rewrite fmap_app. apply NoDup_app. split; [by apply titles_of_filter |].
      split; [| apply NoDup_singleton].
      intros t ([h0 n0] & -> & [Hne _]%list_elem_of_filter)%list_elem_of_fmap.
      cbn in *. intros Heq%list_elem_of_singleton. by destruct Hne.
    + intros h0 n0 [[_ Hin]%list_elem_of_filter | Heq%list_elem_of_singleton]%elem_of_app Hty.
      * case_bool_decide; [by eapply Herr |].
        intros [? | ->%list_elem_of_singleton]%elem_of_app; [by eapply Herr |].
        apply Hsh in Hin. lia.
      * injection Heq as -> ->. rewrite bool_decide_eq_true_2 by done.
        intros Hin%Hti. lia.
  - case_bool_decide; [| done]. intros [= <-]. split; cbn.
    + intros h0 n0 [_ Hin]%list_elem_of_filter. by eapply Hsh.
    + done.
    + by apply titles_of_filter.
    + intros h0 n0 [_ Hin]%list_elem_of_filter. by eapply Herr.
  - case_bool_decide; [| done]. intros [= <-]. split; cbn.
    + intros h0 n0 [_ Hin]%list_elem_of_filter. by eapply Hsh.
    + intros h0 [_ Hin]%list_elem_of_filter. by apply Hti.
    + by apply titles_of_filter.
    + intros h0 n0 [_ Hin]%list_elem_of_filter Hty [_ Hin']%list_elem_of_filter.
      by eapply Herr.
Qed.

Lemma page_wf_run es pg pg' :
  page_wf pg → page_run pg es = Some pg' → page_wf pg'.
Proof.
  revert pg. induction es as [| e es IH]; intros pg Hwf; cbn [page_run].
  - by intros [= <-].
  - destruct (page_step pg e) as [pg1 |] eqn:Hstep; [| done].
    apply IH. by eapply page_wf_step.
Qed.

(** X11.  However notifications are shown, closed and timed out, the page
    never shows two notifications with the same title; a new notification
    is put last, takes the place of the one with its title and leaves the
    notifications with other titles where they are. *)
Theorem one_notification_per_title (es : list page_event) (pg : page) :
  page_run empty_page es = Some pg →
  NoDup ((λ hn : nat * notice, n_title hn.2) <$> shown pg)
  ∧ (∀ n pg', page_step pg (PShow n) = Some pg' →
       last (shown pg') = Some (next_handle pg, n)
       ∧ (∀ h n', (h, n') ∈ shown pg' → n_title n' = n_title n →
                  h = next_handle pg ∧ n' = n)
       ∧ (∀ h n', (h, n') ∈ shown pg → n_title n' ≠ n_title n →
                  (h, n') ∈ shown pg')).
Proof.
  intros Hrun.
  assert (page_wf pg) as Hwf by (eapply page_wf_run, Hrun; apply page_wf_init).
  split; [apply (pw_titles _ Hwf) |].
  intros n pg'. cbn [page_step].
  destruct (plain (n_title n) && plain (n_message n)); [| done].
  intros [= <-]. unfold showNotification. cbn [shown].
  split; [apply last_snoc |]. split.
  - intros h n' [[Hne _]%list_elem_of_filter | Heq%list_elem_of_singleton]%elem_of_app Ht.
    + by destruct Hne.
    + by injection Heq as -> ->.
  - intros h n' Hin Hne. apply elem_of_app. left.
    by apply list_elem_of_filter.
Qed.

Lemma one_notification_per_title_witness :
  let started := mkNotice "Export Started" "first" "warning" None in
  let again := mkNotice "Export Started" "second" "warning" None in
  let failed := mkNotice "Export Failed" "Network Error" "error" None in
  ∃ pg, page_run empty_page [PShow started; PShow failed; PShow again] = Some pg
        ∧ shown pg = [(1%nat, failed); (2%nat, again)].
Proof.
  intros started again failed. eexists. split; [vm_compute; reflexivity |].
  pose proof (one_notification_per_title [PShow started; PShow failed]
                (mkPage [(0%nat, started); (1%nat, failed)] 2 [0%nat])) as [_ H].
  - vm_compute. reflexivity.
  - destruct (H again (showNotification
                         (mkPage [(0%nat, started); (1%nat, failed)] 2 [0%nat])
                         again)) as (Hlast & _ & _); [reflexivity |].
    vm_compute. reflexivity.
Defined.

(** X12.  A timer removes nothing but its own notification, and an error
    notification has no timer: when the 10 s of a notification are over,
    every other notification stays, also the one that meanwhile took its
    title, and every error notification stays. *)
Theorem timer_removes_only_its_notification
    (es : list page_event) (pg pg' : page) (h : nat) :
  page_run empty_page es = Some pg →
  page_step pg (PTimer h) = Some pg' →
  ∀ h' n, (h', n) ∈ shown pg →
          n_type n = "error" ∨ h' ≠ h →
          (h', n) ∈ shown pg'.
Proof.
  intros Hrun Hstep h' n Hin Hcase.
  assert (page_wf pg) as Hwf by (eapply page_wf_run, Hrun; apply page_wf_init).
  cbn [page_step] in Hstep. case_bool_decide as Hh; [| done].
  injection Hstep as <-. cbn [shown]. apply list_elem_of_filter.
  split; [| done]. cbn. destruct Hcase as [Hty | Hne]; [| done].
  intros ->. by eapply (pw_error _ Hwf).
Qed.

Lemma timer_removes_only_its_notification_witness :
  let started := mkNotice "Export Started" "first" "warning" None in
  let again := mkNotice "Export Started" "second" "warning" None in
  ∃ pg pg',
    page_run empty_page [PShow started; PShow again] = Some pg
    ∧ page_step pg (PTimer 0) = Some pg'
    ∧ (1%nat, again) ∈ shown pg'.
Proof.
  intros started again. eexists _, _.
  split; [vm_compute; reflexivity |]. split; [vm_compute; reflexivity |].
  eapply (timer_removes_only_its_notification [PShow started; PShow again] _ _ 0).
  - vm_compute. reflexivity.
  - vm_compute. reflexivity.
  - apply list_elem_of_singleton. reflexivity.
  - right. lia.
Defined.

(** * The organization id of the address *)

Lemma split_slash_segment id r :
  no_slash id = true →
  split_slash (id +:+ "/" +:+ r) = id :: split_slash r.
Proof.
  induction id as [| c id IH].
  - intros _. reflexivity.
  - intros [Hc Hid]%andb_true_iff.
    apply negb_true_iff, bool_decide_eq_false in Hc.
    change (String c id +:+ "/" +:+ r) with (String c (id +:+ "/" +:+ r)).
    cbn [split_slash]. rewrite bool_decide_eq_false_2 by done.
    by rewrite (IH Hid).
Qed.

Lemma split_slash_last id : no_slash id = true → split_slash id = [id].
Proof.
  induction id as [| c id IH]; [done |].
  intros [Hc Hid]%andb_true_iff.
  apply negb_true_iff, bool_decide_eq_false in Hc.
  cbn [split_slash]. rewrite bool_decide_eq_false_2 by done.
  by rewrite (IH Hid).
Qed.

(** X13.  The pages recover the organization id from the address the
    server routes to them: for an id without a slash, the third segment of
    [/org/<id>] and of [/org/<id>/<anything>] is the id. *)
Theorem org_id_of_org_path (id rest : string) :
  no_slash id = true →
  org_id_of_path ("/org/" +:+ id) = Some id
  ∧ org_id_of_path ("/org/" +:+ id +:+ "/" +:+ rest) = Some id.
Proof.
  intros Hid. unfold org_id_of_path.
  change ("/org/" +:+ id) with ("" +:+ "/" +:+ "org" +:+ "/" +:+ id).
  change ("/org/" +:+ id +:+ "/" +:+ rest)
    with ("" +:+ "/" +:+ "org" +:+ "/" +:+ id +:+ "/" +:+ rest).
  rewrite !(split_slash_segment "") by done.
  rewrite !(split_slash_segment "org") by done.
  rewrite split_slash_last, split_slash_segment by done. done.
Qed.

Lemma org_id_of_org_path_witness :
  org_id_of_path "/org/42" = Some "42"
  ∧ org_id_of_path "/org/42/summary" = Some "42".
Proof. apply (org_id_of_org_path "42" "summary"). reflexivity. Defined.

(** * The summary *)

(** X14.  What the summary page shows, for every way the backend call of
    the summary route can end: the table exactly when the backend sent
    data with a truthy [org] and a truthy [summary]; "Failed to load
    summary data." exactly when it sent a truthy [summary] with a falsy but
    present [org]; in every other case, so whenever the route answers with
    an error status, "Error loading summary data.". *)
Theorem summary_page_view (b : backend_outcome) :
  let view := loadSummaryData (answer_body (summary_route b)) in
  (view = ShowSummary ↔ b = BkData (Some (mkBody JTruthy JTruthy)))
  ∧ (view = ShowFailed ↔ b = BkData (Some (mkBody JFalsy JTruthy)))
  ∧ (∀ status e, summary_route b = SumErr status e → view = ShowError).
Proof.
  destruct b as [[[o sm] |] | st | | m]; cbn;
    try destruct sm; try destruct o; cbn;
    (split; [split; (done || congruence) |]);
    (split; [split; (done || congruence) |]); intros ? ?; done.
Qed.

(** * An export from the click to the download *)

(** The worker of a stored job, from the name to the write, all going well. *)
Lemma worker_completes (s : state) (w : nat) (org k : string) (j : Job)
    (n : option string) (data : bytes) (now : Z) :
  workers s !! w = Some (mkTask org k AwaitOrg) →
  jobStatus s !! k = Some j →
  let eid := savings_export_id org now in
  let name := opt_or n "organization" in
  ∃ s',
    run s [EvOrgReply w (AxOk (DataOrg n)); EvReportReply w (AxOk data) now;
           EvWriteDone w WriteOk] = Some (s', [])
    ∧ jobStatus s' = <[k := set_completed eid (set_orgName name j)]> (jobStatus s)
    ∧ files s' = <[filePath eid := data]> (files s).
Proof.
  intros Hw Hj eid name.
  assert (worker_org (jobStatus s) k (AxOk (DataOrg n))
          = (<[k := set_orgName name j]> (jobStatus s), AwaitReport)) as Horg.
  { unfold worker_org, assign_orgName. cbn. by rewrite (js_get_own _ _ _ Hj). }
  set (s1 := set_worker s w (<[k := set_orgName name j]> (jobStatus s))
               (files s) (mkTask org k AwaitOrg) AwaitReport).
  assert (step s (EvOrgReply w (AxOk (DataOrg n))) = Some (s1, None)) as Hstep1.
  { cbn [step]. rewrite Hw. cbn [w_pc w_jobId]. by rewrite Horg. }
  assert (workers s1 !! w = Some (mkTask org k AwaitReport)) as Hw1
    by apply (set_worker_lookup s w _ _ _ _ Hw).
  set (s2 := set_worker s1 w (jobStatus s1) (files s1)
               (mkTask org k AwaitReport) (AwaitWrite eid data)).
  assert (step s1 (EvReportReply w (AxOk data) now) = Some (s2, None)) as Hstep2.
  { cbn [step]. by rewrite Hw1. }
  assert (workers s2 !! w = Some (mkTask org k (AwaitWrite eid data))) as Hw2
    by apply (set_worker_lookup s1 w _ _ _ _ Hw1).
  assert (jobStatus s2 !! k = Some (set_orgName name j)) as Hj2.
  { cbn. by rewrite lookup_insert_eq. }
  set (s3 := set_worker s2 w
               (<[k := set_completed eid (set_orgName name j)]> (jobStatus s2))
               (<[filePath eid := data]> (files s2))
               (mkTask org k (AwaitWrite eid data)) Finished).
  assert (step s2 (EvWriteDone w WriteOk) = Some (s3, None)) as Hstep3.
  { cbn [step]. rewrite Hw2. cbn [w_pc w_jobId].
    unfold worker_write, assign_completed. by rewrite (js_get_own _ _ _ Hj2). }
  exists s3. split; [cbn [run]; by rewrite Hstep1, Hstep2, Hstep3 |].
  split; [| done]. cbn. by rewrite insert_insert_eq.
Qed.

Lemma export_answered
    (s : state) (org name : string) (data : bytes) (t_id t_created t_write now : Z) :
  name ≠ "" →
  (now - t_created ≤ 3600000)%Z →
  let k := savings_export_id org t_id in
  let w := length (workers s) in
  ∃ s' started,
    run s [EvStart org t_id t_created;
           EvOrgReply w (AxOk (DataOrg (Some name)));
           EvReportReply w (AxOk data) t_write;
           EvWriteDone w WriteOk] = Some (s', [started])
    ∧ (start_tick (response_json started)).2 = Some k
    ∧ pe_download (poll_answered s' k now).2 = Some ("/api/download/" +:+ k)
    ∧ (download_route (poll_answered s' k now).1 k).2
      = SendFile (filePath (savings_export_id org t_write))
          (name +:+ "-savings-analysis.zip").
Proof.
  intros Hname Hnow k w.
  set (j0 := mkJob Processing org None None t_created None).
  set (s0 := (start_export s org t_id t_created).1).
  assert (workers s0 !! w = Some (mkTask org k AwaitOrg)) as Hw
    by (by apply list_lookup_middle).
  assert (jobStatus s0 !! k = Some j0) as Hj0
    by (cbn; by rewrite lookup_insert_eq).
  destruct (worker_completes s0 w org k j0 (Some name) data t_write Hw Hj0)
    as (s' & Hrun & Htbl & Hfs).
  set (eid := savings_export_id org t_write) in *.
  assert (opt_or (Some name) "organization" = name) as Hn.
  { cbn. unfold str_or. by rewrite bool_decide_eq_false_2. }
  rewrite Hn in Htbl.
  set (j := set_completed eid (set_orgName name j0)) in *.
  assert (jobStatus s' !! k = Some j) as Hj by (by rewrite Htbl, lookup_insert_eq).
  assert (eid ≠ "") as Heid by apply savings_export_id_nonempty.
  assert (sweep now (jobStatus s') !! k = Some j) as Hsw.
  { rewrite sweep_lookup, Hj. unfold expired. cbn [created j set_completed set_orgName j0].
    rewrite (bool_decide_eq_false_2 (now - t_created > 3600000)) by lia.
    by rewrite andb_false_r. }
  eexists s', _. split; [| split; [| split]].
  - assert (run s [EvStart org t_id t_created]
            = Some (s0, [(start_export s org t_id t_created).2])) as Hrun0
      by reflexivity.
    change (run s ?l) with
      (run s ([EvStart org t_id t_created]
              ++ [EvOrgReply w (AxOk (DataOrg (Some name)));
                  EvReportReply w (AxOk data) t_write; EvWriteDone w WriteOk])%list).
    rewrite (run_app _ _ _ _ _ Hrun0), Hrun. reflexivity.
  - unfold start_export, response_json, start_tick. cbn [snd c_status c_jobId truthy].
    rewrite bool_decide_eq_true_2 by done.
    rewrite (bool_decide_eq_false_2 (savings_export_id org t_id = ""))
      by apply savings_export_id_nonempty.
    reflexivity.
  - unfold poll_answered, job_status_route. rewrite (js_get_own _ _ _ Hsw).
    cbn [snd response_json poll_tick job_json c_status c_exportId j
         set_completed status exportId status_string truthy].
    rewrite bool_decide_eq_true_2 by done.
    rewrite (bool_decide_eq_false_2 (eid = "")) by done. reflexivity.
  - assert (jobStatus (poll_answered s' k now).1 !! k = Some j) as Hj1.
    { unfold poll_answered. pose proof (job_status_route_table s' k now) as (H & _).
      destruct (job_status_route s' k now). cbn in *. by rewrite H. }
    assert (files (poll_answered s' k now).1 !! filePath eid = Some data) as Hf1.
    { unfold poll_answered. pose proof (job_status_route_table s' k now) as (_ & _ & H).
      destruct (job_status_route s' k now). cbn in *.
      by rewrite H, Hfs, lookup_insert_eq. }
    rewrite (download_route_sends _ k j eid data Hj1 eq_refl Heid Hf1).
    cbn. unfold str_or. by rewrite bool_decide_eq_false_2.
Qed.


(** * The poller over HTTP *)

Lemma url_chars_app a b : url_chars (a +:+ b) = url_chars a && url_chars b.
Proof.
  induction a as [| c a IH]; [done |].
  change (String c a +:+ b) with (String c (a +:+ b)).
  cbn [url_chars]. by rewrite IH, andb_assoc.
Qed.

Lemma url_char_digit x : url_char (pretty_N_char x) = true.
Proof.
  destruct x as [| p]; [done |].
  do 5 (try (destruct p as [p | p |]; try reflexivity)).
Qed.

Lemma url_chars_pretty_N_go x s :
  url_chars s = true → url_chars (pretty_N_go x s) = true.
Proof.
  revert s. induction (N.lt_wf_0 x) as [x _ IH]. intros s Hs.
  destruct (decide (0 < x)%N) as [Hx | Hx].
  - rewrite pretty_N_go_step by done. apply IH.
    + by apply N.div_lt.
    + cbn. by rewrite url_char_digit, Hs.
  - assert (x = 0%N) as -> by lia. by rewrite pretty_N_go_0.
Qed.

Lemma url_chars_pretty_N (x : N) : url_chars (pretty x) = true.
Proof.
  unfold pretty, pretty_N. case_decide; [done |].
  by apply url_chars_pretty_N_go.
Qed.

Lemma url_chars_pretty_Z (x : Z) : url_chars (pretty x) = true.
Proof. destruct x; [done | apply url_chars_pretty_N | apply url_chars_pretty_N]. Qed.

(** The job id of an organization id that the path carries is carried by
    the path as well. *)
Lemma org_segment_job_id org t :
  org_segment org = true → url_safe (savings_export_id org t) = true.
Proof.
  unfold org_segment, url_safe. intros [[_ Ho]%andb_true_iff _]%andb_true_iff.
  rewrite bool_decide_eq_false_2 by apply savings_export_id_nonempty.
  unfold savings_export_id. rewrite !url_chars_app, Ho, url_chars_pretty_Z.
  reflexivity.
Qed.

Lemma client_poll_safe s k now :
  url_safe k = true → client_poll s k now = Some (poll_answered s k now).
Proof. unfold client_poll. by intros ->. Qed.


(** X8.  A click on the savings link ends in polling: for every
    organization id that the page can put into the path, and whatever the
    clock, the page shows "Export Started" and nothing else, and polls
    exactly the id under which the server has just stored the job as
    processing; a tick that comes within the hour, before the worker has
    moved, goes on polling. *)
Theorem start_leads_to_polling
    (s : state) (org : string) (t_id t_created : Z) :
  let jobId := savings_export_id org t_id in
  org_segment org = true →
  ∃ s' ns,
    client_start s org t_id t_created = Some (s', (ns, Some jobId))
    ∧ n_title <$> ns = ["Export Started"]
    ∧ (status <$> jobStatus s' !! jobId) = Some Processing
    ∧ (∀ now, (now - t_created ≤ 3600000)%Z →
              snd <$> client_poll s' jobId now = Some keep_polling).
Proof.
  intros jobId Horg.
  destruct (start_then_poll_answered s org t_id t_created) as (H1 & H2 & H3 & H4).
  exists (start_answered s org t_id t_created).1,
         (start_answered s org t_id t_created).2.1.
  split; [| split; [exact H2 | split; [exact H3 |]]].
  - unfold client_start. rewrite Horg. reflexivity.
  - intros now Hnow.
    rewrite (client_poll_safe _ _ _ (org_segment_job_id _ t_id Horg)). cbn.
    f_equal. by apply H4.
Qed.

Lemma start_leads_to_polling_witness :
  ∃ s' ns,
    client_start init "42" 1000 1000
    = Some (s', (ns, Some "savings-export-42-1000"))
    ∧ snd <$> client_poll s' "savings-export-42-1000" 4000 = Some keep_polling.
Proof.
  destruct (start_leads_to_polling init "42" 1000 1000)
    as (s' & ns & H1 & _ & _ & H4).
  - vm_compute. reflexivity.
  - exists s', ns. split; [exact H1 |]. apply H4. lia.
Defined.





(** X15.  An export from the click to the download: from any state, when a
    job is started for an organization id that the page can put into the
    path, and its worker gets the name, gets the report and writes
    it, a tick of the poller within the hour stops with the download, and
    the download route then sends the report under the name of the
    organization. *)
Theorem export_end_to_end
    (s : state) (org name : string) (data : bytes) (t_id t_created t_write now : Z) :
  let k := savings_export_id org t_id in
  let w := length (workers s) in
  name ≠ "" →
  org_segment org = true →
  (now - t_created ≤ 3600000)%Z →
  ∃ s' started s1 eff,
    run s [EvStart org t_id t_created;
           EvOrgReply w (AxOk (DataOrg (Some name)));
           EvReportReply w (AxOk data) t_write;
           EvWriteDone w WriteOk] = Some (s', [started])
    ∧ (start_tick (response_json started)).2 = Some k
    ∧ client_poll s' k now = Some (s1, eff)
    ∧ pe_download eff = Some ("/api/download/" +:+ k)
    ∧ (download_route s1 k).2
      = SendFile (filePath (savings_export_id org t_write))
          (name +:+ "-savings-analysis.zip").
Proof.
  intros k w Hname Horg Hnow.
  pose proof (org_segment_job_id org t_id Horg) as Hsafe.
  destruct (export_answered s org name data t_id t_created t_write now Hname Hnow)
    as (s' & started & Hrun & Hstart & Hpoll & Hd).
  exists s', started, (poll_answered s' k now).1, (poll_answered s' k now).2.
  split; [exact Hrun |]. split; [exact Hstart |].
  split; [| split; [exact Hpoll | exact Hd]].
  rewrite (client_poll_safe _ _ _ Hsafe). f_equal. apply surjective_pairing.
Qed.

Lemma export_end_to_end_witness :
  ∃ s' started s1 eff,
    run init acme_run = Some (s', [started])
    ∧ client_poll s' "savings-export-42-1000" 4000 = Some (s1, eff)
    ∧ pe_download eff = Some "/api/download/savings-export-42-1000"
    ∧ (download_route s1 "savings-export-42-1000").2
      = SendFile "temp/savings-export-42-2000.zip" "Acme-savings-analysis.zip".
Proof.
  destruct (export_end_to_end init "42" "Acme" zip 1000 1000 2000 4000)
    as (s' & started & s1 & eff & Hrun & _ & Hpoll & Hdl & Hd).
  - discriminate.
  - vm_compute. reflexivity.
  - lia.
  - exists s', started, s1, eff. by repeat split.
Defined.
